(** * The dataset input layer of CN24 (src/net/DatasetInputLayer.cpp)

    A shallow embedding of [DatasetInputLayer]: the constructor, [CreateOutputs],
    [Connect], [FeedForward], [RedoPermutation] and [SetTestingMode], followed by
    the properties of the sampling engine.

    Conventions.
    - [unsigned int] values are integers in [Z] reduced by [wrap32] wherever the
      source computes or converts them; [std::size_t] counters use [wrap64].
    - [datum] (a float) is the rational number a finite float denotes; only the
      comparison [dist_(generator_) > loss_sampling_p_] and the constant 0 are used.
    - A pointer to a [CombinedTensor] is an [option]: [None] is [nullptr], and
      [Some c] stands for a pointer to an object of its own holding [c], as
      [CreateOutputs] allocates the outputs. Outputs that share an object are
      covered by the section on the outputs as shared objects, where pointers
      are addresses of a store; the two models are proved to agree when no
      two outputs point to the same object.
    - The build without OpenCL is modelled ([MoveToCPU] / [MoveToGPU] are absent). *)

From Stdlib Require Import ZArith QArith Lia.
From stdpp Require Import base list list_numbers sorting.

Local Open Scope Z_scope.

(** ** Machine integers and scalars *)

Definition wrap32 (z : Z) : Z := z mod 2 ^ 32.
Definition wrap64 (z : Z) : Z := z mod 2 ^ 64.

Definition datum : Type := Q.

(** [a > b] on [datum]. *)
Definition datum_gt (a b : datum) : bool := negb (Qle_bool a b).

(** ** Tensors *)

Definition cells : Type := Z -> Z -> Z -> Z -> datum.

(** Modelled from the spec: Tensor.h is not among the sources. A tensor has the
    shape (batch, width, height, channels) and is read and written by
    (x, y, channel, batch-index); [Clear] resets one batch slot to a constant. *)
Record Tensor : Type := {
  samples : Z;
  width : Z;
  height : Z;
  maps : Z;
  cell : cells
}.

Definition with_cells (t : Tensor) (c : cells) : Tensor :=
  {| samples := samples t; width := width t; height := height t;
     maps := maps t; cell := c |}.

(** Modelled from the spec: the element access of Tensor.h, as the source uses
    it: [*t.data_ptr(x, y, map, sample) = v]. *)
Definition data_ptr_store (x y map sample : Z) (v : datum) (t : Tensor) : Tensor :=
  with_cells t (fun x' y' map' sample' =>
    if (x' =? x) && (y' =? y) && (map' =? map) && (sample' =? sample)
    then v else cell t x' y' map' sample').

(** Modelled from the spec: [t.Clear(v, sample)] of Tensor.h resets the batch
    slot [sample] to the constant [v]. *)
Definition Clear (v : datum) (sample : Z) (t : Tensor) : Tensor :=
  with_cells t (fun x' y' map' sample' =>
    if sample' =? sample then v else cell t x' y' map' sample').

(** Modelled from the spec: CombinedTensor.h is not among the sources. A tensor
    pair holds a value tensor and a gradient tensor of the same shape. The
    content of a freshly allocated tensor is not fixed by the spec; it is taken
    as zero and no property below depends on it. *)
Record CombinedTensor : Type := {
  data : Tensor;
  delta : Tensor
}.

Definition with_data (c : CombinedTensor) (t : Tensor) : CombinedTensor :=
  {| data := t; delta := delta c |}.

Definition new_Tensor (samples width height maps : Z) : Tensor :=
  {| samples := samples; width := width; height := height; maps := maps;
     cell := fun _ _ _ _ => 0%Q |}.

Definition new_CombinedTensor (samples width height maps : Z) : CombinedTensor :=
  {| data := new_Tensor samples width height maps;
     delta := new_Tensor samples width height maps |}.

(** ** The Dataset interface *)

(** Modelled from the spec: Dataset.h is not among the sources. A dataset
    exposes its geometry, its sample counts and two fetch operations that fill
    the caller's data, label and weight tensors at a batch slot for a sample
    index and report success. A fetch returns the new contents of the three
    tensors; it cannot reshape them. *)
Record Dataset : Type := {
  GetWidth : Z;
  GetHeight : Z;
  GetInputMaps : Z;
  GetLabelMaps : Z;
  GetTrainingSamples : Z;
  GetTestingSamples : Z;
  GetTrainingSample : Tensor -> Tensor -> Tensor -> Z -> Z -> bool * (cells * cells * cells);
  GetTestingSample : Tensor -> Tensor -> Tensor -> Z -> Z -> bool * (cells * cells * cells)
}.

(** ** The random number library *)

(** The C++ standard library is outside the repository. The layer uses a
    generator seeded at construction, [std::uniform_real_distribution<datum>]
    over (0.0, 1.0) and [std::shuffle]; they enter the model through their
    interface and the two guarantees of the standard: a draw lies in [0, 1) and
    [std::shuffle] permutes the range it is given. *)
Class StdRandom : Type := {
  generator : Type;
  seed_generator : Z -> generator;
  uniform_real : generator -> datum * generator;
  shuffle : list Z -> generator -> list Z * generator;
  uniform_real_range : forall g, (0 <= (uniform_real g).1 < 1)%Q;
  shuffle_Permutation : forall l g, (shuffle l g).1 ≡ₚ l
}.

(** The [n]-th next draw of a generator, and the generator after [n] draws. *)
Fixpoint skip `{StdRandom} (n : nat) (g : generator) : generator :=
  match n with
  | O => g
  | S n' => skip n' (uniform_real g).2
  end.

Definition draw `{StdRandom} (n : nat) (g : generator) : datum :=
  (uniform_real (skip n g)).1.

(** ** Observable events (ghost state)

    The log records, in program order, every call of a Dataset fetch operation
    (mode, batch slot, selected element, and whether the slot is forced to no
    weight) and every call of [RedoPermutation]. *)
Inductive Event : Type :=
| EvFetch (testing : bool) (sample : Z) (selected_element : Z) (force_no_weight : bool)
| EvShuffle.

(** The selected elements of the fetches of a log, in order. *)
Fixpoint selected_elements (l : list Event) : list Z :=
  match l with
  | [] => []
  | EvFetch _ _ e _ :: l' => e :: selected_elements l'
  | EvShuffle :: l' => selected_elements l'
  end.

(** The fetches of a log that serve a sample with its weight (no padding). *)
Fixpoint served_elements (l : list Event) : list Z :=
  match l with
  | [] => []
  | EvFetch _ _ e false :: l' => e :: served_elements l'
  | _ :: l' => served_elements l'
  end.

(** The number of reshuffles in a log. *)
Fixpoint shuffles (l : list Event) : nat :=
  match l with
  | [] => O
  | EvShuffle :: l' => S (shuffles l')
  | EvFetch _ _ _ _ :: l' => shuffles l'
  end.

Section Layer.
Context `{StdRandom}.

(** ** The layer object *)

(** Modelled from the spec: DatasetInputLayer.h is not among the sources. The
    members are those the source file assigns and reads; the counters and
    counts are [unsigned int], [perm_] is a vector of [unsigned int], the four
    outputs are pointers. A new layer is in training mode with both cursors at
    0 and no output bound. [log_] is the ghost event log. *)
Record DatasetInputLayer : Type := {
  dataset_ : Dataset;
  batch_size_ : Z;
  loss_sampling_p_ : datum;
  seed_ : Z;
  generator_ : generator;
  label_maps_ : Z;
  input_maps_ : Z;
  elements_training_ : Z;
  elements_testing_ : Z;
  elements_total_ : Z;
  perm_ : list Z;
  current_element_ : Z;
  current_element_testing_ : Z;
  testing_ : bool;
  data_output_ : option CombinedTensor;
  label_output_ : option CombinedTensor;
  helper_output_ : option CombinedTensor;
  localized_error_output_ : option CombinedTensor;
  log_ : list Event
}.

Definition set_generator_ (v : generator) (s : DatasetInputLayer) : DatasetInputLayer :=
  {| dataset_ := dataset_ s; batch_size_ := batch_size_ s;
     loss_sampling_p_ := loss_sampling_p_ s; seed_ := seed_ s; generator_ := v;
     label_maps_ := label_maps_ s; input_maps_ := input_maps_ s;
     elements_training_ := elements_training_ s; elements_testing_ := elements_testing_ s;
     elements_total_ := elements_total_ s; perm_ := perm_ s;
     current_element_ := current_element_ s;
     current_element_testing_ := current_element_testing_ s; testing_ := testing_ s;
     data_output_ := data_output_ s; label_output_ := label_output_ s;
     helper_output_ := helper_output_ s;
     localized_error_output_ := localized_error_output_ s; log_ := log_ s |}.

Definition set_perm_ (v : list Z) (s : DatasetInputLayer) : DatasetInputLayer :=
  {| dataset_ := dataset_ s; batch_size_ := batch_size_ s;
     loss_sampling_p_ := loss_sampling_p_ s; seed_ := seed_ s; generator_ := generator_ s;
     label_maps_ := label_maps_ s; input_maps_ := input_maps_ s;
     elements_training_ := elements_training_ s; elements_testing_ := elements_testing_ s;
     elements_total_ := elements_total_ s; perm_ := v;
     current_element_ := current_element_ s;
     current_element_testing_ := current_element_testing_ s; testing_ := testing_ s;
     data_output_ := data_output_ s; label_output_ := label_output_ s;
     helper_output_ := helper_output_ s;
     localized_error_output_ := localized_error_output_ s; log_ := log_ s |}.

Definition set_current_element_ (v : Z) (s : DatasetInputLayer) : DatasetInputLayer :=
  {| dataset_ := dataset_ s; batch_size_ := batch_size_ s;
     loss_sampling_p_ := loss_sampling_p_ s; seed_ := seed_ s; generator_ := generator_ s;
     label_maps_ := label_maps_ s; input_maps_ := input_maps_ s;
     elements_training_ := elements_training_ s; elements_testing_ := elements_testing_ s;
     elements_total_ := elements_total_ s; perm_ := perm_ s; current_element_ := v;
     current_element_testing_ := current_element_testing_ s; testing_ := testing_ s;
     data_output_ := data_output_ s; label_output_ := label_output_ s;
     helper_output_ := helper_output_ s;
     localized_error_output_ := localized_error_output_ s; log_ := log_ s |}.

Definition set_current_element_testing_ (v : Z) (s : DatasetInputLayer) : DatasetInputLayer :=
  {| dataset_ := dataset_ s; batch_size_ := batch_size_ s;
     loss_sampling_p_ := loss_sampling_p_ s; seed_ := seed_ s; generator_ := generator_ s;
     label_maps_ := label_maps_ s; input_maps_ := input_maps_ s;
     elements_training_ := elements_training_ s; elements_testing_ := elements_testing_ s;
     elements_total_ := elements_total_ s; perm_ := perm_ s;
     current_element_ := current_element_ s; current_element_testing_ := v;
     testing_ := testing_ s; data_output_ := data_output_ s;
     label_output_ := label_output_ s; helper_output_ := helper_output_ s;
     localized_error_output_ := localized_error_output_ s; log_ := log_ s |}.

Definition set_testing_ (v : bool) (s : DatasetInputLayer) : DatasetInputLayer :=
  {| dataset_ := dataset_ s; batch_size_ := batch_size_ s;
     loss_sampling_p_ := loss_sampling_p_ s; seed_ := seed_ s; generator_ := generator_ s;
     label_maps_ := label_maps_ s; input_maps_ := input_maps_ s;
     elements_training_ := elements_training_ s; elements_testing_ := elements_testing_ s;
     elements_total_ := elements_total_ s; perm_ := perm_ s;
     current_element_ := current_element_ s;
     current_element_testing_ := current_element_testing_ s; testing_ := v;
     data_output_ := data_output_ s; label_output_ := label_output_ s;
     helper_output_ := helper_output_ s;
     localized_error_output_ := localized_error_output_ s; log_ := log_ s |}.

Definition set_data_output_ (v : option CombinedTensor) (s : DatasetInputLayer) : DatasetInputLayer :=
  {| dataset_ := dataset_ s; batch_size_ := batch_size_ s;
     loss_sampling_p_ := loss_sampling_p_ s; seed_ := seed_ s; generator_ := generator_ s;
     label_maps_ := label_maps_ s; input_maps_ := input_maps_ s;
     elements_training_ := elements_training_ s; elements_testing_ := elements_testing_ s;
     elements_total_ := elements_total_ s; perm_ := perm_ s;
     current_element_ := current_element_ s;
     current_element_testing_ := current_element_testing_ s; testing_ := testing_ s;
     data_output_ := v; label_output_ := label_output_ s;
     helper_output_ := helper_output_ s;
     localized_error_output_ := localized_error_output_ s; log_ := log_ s |}.

Definition set_label_output_ (v : option CombinedTensor) (s : DatasetInputLayer) : DatasetInputLayer :=
  {| dataset_ := dataset_ s; batch_size_ := batch_size_ s;
     loss_sampling_p_ := loss_sampling_p_ s; seed_ := seed_ s; generator_ := generator_ s;
     label_maps_ := label_maps_ s; input_maps_ := input_maps_ s;
     elements_training_ := elements_training_ s; elements_testing_ := elements_testing_ s;
     elements_total_ := elements_total_ s; perm_ := perm_ s;
     current_element_ := current_element_ s;
     current_element_testing_ := current_element_testing_ s; testing_ := testing_ s;
     data_output_ := data_output_ s; label_output_ := v; helper_output_ := helper_output_ s;
     localized_error_output_ := localized_error_output_ s; log_ := log_ s |}.

Definition set_helper_output_ (v : option CombinedTensor) (s : DatasetInputLayer) : DatasetInputLayer :=
  {| dataset_ := dataset_ s; batch_size_ := batch_size_ s;
     loss_sampling_p_ := loss_sampling_p_ s; seed_ := seed_ s; generator_ := generator_ s;
     label_maps_ := label_maps_ s; input_maps_ := input_maps_ s;
     elements_training_ := elements_training_ s; elements_testing_ := elements_testing_ s;
     elements_total_ := elements_total_ s; perm_ := perm_ s;
     current_element_ := current_element_ s;
     current_element_testing_ := current_element_testing_ s; testing_ := testing_ s;
     data_output_ := data_output_ s; label_output_ := label_output_ s; helper_output_ := v;
     localized_error_output_ := localized_error_output_ s; log_ := log_ s |}.

Definition set_localized_error_output_ (v : option CombinedTensor) (s : DatasetInputLayer) : DatasetInputLayer :=
  {| dataset_ := dataset_ s; batch_size_ := batch_size_ s;
     loss_sampling_p_ := loss_sampling_p_ s; seed_ := seed_ s; generator_ := generator_ s;
     label_maps_ := label_maps_ s; input_maps_ := input_maps_ s;
     elements_training_ := elements_training_ s; elements_testing_ := elements_testing_ s;
     elements_total_ := elements_total_ s; perm_ := perm_ s;
     current_element_ := current_element_ s;
     current_element_testing_ := current_element_testing_ s; testing_ := testing_ s;
     data_output_ := data_output_ s; label_output_ := label_output_ s;
     helper_output_ := helper_output_ s; localized_error_output_ := v; log_ := log_ s |}.

Definition set_log_ (v : list Event) (s : DatasetInputLayer) : DatasetInputLayer :=
  {| dataset_ := dataset_ s; batch_size_ := batch_size_ s;
     loss_sampling_p_ := loss_sampling_p_ s; seed_ := seed_ s; generator_ := generator_ s;
     label_maps_ := label_maps_ s; input_maps_ := input_maps_ s;
     elements_training_ := elements_training_ s; elements_testing_ := elements_testing_ s;
     elements_total_ := elements_total_ s; perm_ := perm_ s;
     current_element_ := current_element_ s;
     current_element_testing_ := current_element_testing_ s; testing_ := testing_ s;
     data_output_ := data_output_ s; label_output_ := label_output_ s;
     helper_output_ := helper_output_ s;
     localized_error_output_ := localized_error_output_ s; log_ := v |}.

Definition log_event (e : Event) (s : DatasetInputLayer) : DatasetInputLayer :=
  set_log_ (log_ s ++ [e]) s.

(** ** Outcomes of an operation

    [Done a]: the operation returned [a].
    [Fatal s]: execution halted in state [s].
    [Undefined]: an [operator[]] out of range or a null pointer dereference.
    [Timeout]: a loop did not leave within its fuel. *)
Inductive outcome (A : Type) : Type :=
| Done (a : A)
| Fatal (s : DatasetInputLayer)
| Undefined
| Timeout.

Arguments Done {A} a.
Arguments Fatal {A} s.
Arguments Undefined {A}.
Arguments Timeout {A}.

Definition bind {A B : Type} (o : outcome A) (k : A -> outcome B) : outcome B :=
  match o with
  | Done a => k a
  | Fatal s => Fatal s
  | Undefined => Undefined
  | Timeout => Timeout
  end.

(** Modelled from the spec: Log.h, which defines the [FATAL] macro, is not among
    the sources. A fatal error halts execution: it is not retried and nothing
    runs after it. *)
Definition FATAL {A : Type} (s : DatasetInputLayer) : outcome A := Fatal s.

Notation "x <- c1 ;; c2" := (bind c1 (fun x => c2))
  (at level 100, c1 at next level, right associativity).

(** ** RedoPermutation (lines 197-200) *)

Definition RedoPermutation (s : DatasetInputLayer) : DatasetInputLayer :=
  let '(perm, g) := shuffle (perm_ s) (generator_ s) in
  log_event EvShuffle (set_generator_ g (set_perm_ perm s)).

(** ** The constructor (lines 24-53) *)

(** [for (unsigned int i = 0; i < elements_training_; i++) perm_.push_back (i);]
    run with [fuel] iterations at most. From [i = 0] the condition fails after
    [elements_training_] iterations, which is the fuel the constructor gives. *)
Fixpoint push_ascending (fuel : nat) (i n : Z) (perm : list Z) : list Z :=
  match fuel with
  | O => perm
  | S fuel' =>
      if i <? n then push_ascending fuel' (wrap32 (i + 1)) n (perm ++ [i]) else perm
  end.

Definition new_DatasetInputLayer (dataset : Dataset) (batch_size : Z)
    (loss_sampling_p : datum) (seed : Z) : DatasetInputLayer :=
  let elements_training := wrap32 (GetTrainingSamples dataset) in
  let elements_testing := wrap32 (GetTestingSamples dataset) in
  RedoPermutation
    {| dataset_ := dataset;
       batch_size_ := wrap32 batch_size;
       loss_sampling_p_ := loss_sampling_p;
       seed_ := wrap32 seed;
       generator_ := seed_generator (wrap32 seed);
       label_maps_ := wrap32 (GetLabelMaps dataset);
       input_maps_ := wrap32 (GetInputMaps dataset);
       elements_training_ := elements_training;
       elements_testing_ := elements_testing;
       elements_total_ := wrap32 (elements_training + elements_testing);
       perm_ := push_ascending (Z.to_nat elements_training) 0 elements_training [];
       current_element_ := 0;
       current_element_testing_ := 0;
       testing_ := false;
       data_output_ := None;
       label_output_ := None;
       helper_output_ := None;
       localized_error_output_ := None;
       log_ := [] |}.

(** ** CreateOutputs (lines 55-83) *)

Definition CreateOutputs (inputs outputs : list (option CombinedTensor))
    (s : DatasetInputLayer) : bool * list (option CombinedTensor) :=
  if negb (length inputs =? 0)%nat then (false, outputs)
  else
    let w := wrap32 (GetWidth (dataset_ s)) in
    let h := wrap32 (GetHeight (dataset_ s)) in
    let data_output := new_CombinedTensor (batch_size_ s) w h (input_maps_ s) in
    let label_output := new_CombinedTensor (batch_size_ s) w h (label_maps_ s) in
    let helper_output := new_CombinedTensor (batch_size_ s) w h 2 in
    let localized_error_output := new_CombinedTensor (batch_size_ s) w h 1 in
    (true, outputs ++ [Some data_output] ++ [Some label_output]
                   ++ [Some helper_output] ++ [Some localized_error_output]).

(** ** Connect (lines 85-107) *)

(** Lines 100-103: the four assignments to the output members. Each member
    gets an object of its own here; [Connect_shared] below stores addresses,
    which may coincide. *)
Definition bind_outputs (data_output label_output helper_output localized_error_output
    : option CombinedTensor) (s : DatasetInputLayer) : DatasetInputLayer :=
  set_localized_error_output_ localized_error_output
    (set_helper_output_ helper_output
      (set_label_output_ label_output
        (set_data_output_ data_output s))).

Definition is_nullptr (p : option CombinedTensor) : bool :=
  match p with None => true | Some _ => false end.

(** [outputs[i]] of a [std::vector]: undefined out of range. *)
Definition vector_at {A : Type} (v : list A) (i : nat) : outcome A :=
  match v !! i with
  | Some a => Done a
  | None => Undefined
  end.

Definition Connect (inputs outputs : list (option CombinedTensor))
    (s : DatasetInputLayer) : outcome (bool * DatasetInputLayer) :=
  data_output <- vector_at outputs 0 ;;
  label_output <- vector_at outputs 1 ;;
  helper_output <- vector_at outputs 2 ;;
  localized_error_output <- vector_at outputs 3 ;;
  if is_nullptr data_output || is_nullptr label_output
     || is_nullptr localized_error_output
  then Done (false, s)
  else
    let valid := (length inputs =? 0)%nat && (length outputs =? 4)%nat in
    if valid
    then Done (valid, bind_outputs data_output label_output helper_output
                        localized_error_output s)
    else Done (valid, s).

(** ** SetTestingMode (lines 202-215) *)

Definition SetTestingMode (testing : bool) (s : DatasetInputLayer) : DatasetInputLayer :=
  let s :=
    if negb (Bool.eqb testing (testing_ s))
    then (if testing then set_current_element_testing_ 0 s else s)
    else s in
  set_testing_ testing s.

(** ** FeedForward (lines 109-179) *)

(** Lines 117-143: the index selection of one batch slot. The result is
    [selected_element], [force_no_weight] and the state. The cursors are
    [unsigned int]: they are never negative, and [Z.to_nat] is their value as
    a vector index. *)
Definition select_element (s : DatasetInputLayer)
    : outcome (Z * bool * DatasetInputLayer) :=
  if testing_ s then
    let selected_element := current_element_testing_ s in
    let s := set_current_element_testing_ (wrap32 (current_element_testing_ s + 1)) s in
    if elements_testing_ s <=? current_element_testing_ s
    then Done (0, true, s)
    else Done (selected_element, false, s)
  else
    selected_element <- vector_at (perm_ s) (Z.to_nat (current_element_ s)) ;;
    let s := set_current_element_ (wrap32 (current_element_ s + 1)) s in
    if Z.of_nat (length (perm_ s)) <=? current_element_ s
    then Done (selected_element, false, RedoPermutation (set_current_element_ 0 s))
    else Done (selected_element, false, s).

(** Lines 145-150: the fetch from the Dataset, through the three bound
    outputs. The result is [success] and the state. *)
Definition fetch_sample (sample selected_element : Z) (force_no_weight : bool)
    (s : DatasetInputLayer) : outcome (bool * DatasetInputLayer) :=
  match data_output_ s, label_output_ s, localized_error_output_ s with
  | Some d, Some l, Some e =>
      let get := if testing_ s then GetTestingSample else GetTrainingSample in
      let '(success, (cd, cl, ce)) :=
        get (dataset_ s) (data d) (data l) (data e) sample selected_element in
      Done (success,
            log_event (EvFetch (testing_ s) sample selected_element force_no_weight)
              (set_localized_error_output_ (Some (with_data e (with_cells (data e) ce)))
                (set_label_output_ (Some (with_data l (with_cells (data l) cl)))
                  (set_data_output_ (Some (with_data d (with_cells (data d) cd))) s))))
  | _, _, _ => Undefined
  end.

Definition block_size : Z := 12.

(** Line 166: [for (ix = x; ix < x+block_size && ix < width; ix++)]. *)
Fixpoint loop_ix (fuel : nat) (ix x iy sample : Z) (t : Tensor) : option Tensor :=
  match fuel with
  | O => None
  | S fuel' =>
      if (ix <? wrap32 (x + block_size)) && (ix <? width t)
      then loop_ix fuel' (wrap32 (ix + 1)) x iy sample (data_ptr_store ix iy 0 sample 0%Q t)
      else Some t
  end.

(** Line 165: [for (iy = y; iy < y+block_size && iy < height; iy++)]. *)
Fixpoint loop_iy (fuel : nat) (iy x y sample : Z) (t : Tensor) : option Tensor :=
  match fuel with
  | O => None
  | S fuel' =>
      if (iy <? wrap32 (y + block_size)) && (iy <? height t)
      then
        match loop_ix (S (Z.to_nat block_size)) x x iy sample t with
        | Some t' => loop_iy fuel' (wrap32 (iy + 1)) x y sample t'
        | None => None
        end
      else Some t
  end.

(** Line 163: [for (x = 0; x < width; x += block_size)], one draw per block. *)
Fixpoint loop_x (fuel : nat) (x y sample : Z) (p : datum) (g : generator) (t : Tensor)
    : option (generator * Tensor) :=
  match fuel with
  | O => None
  | S fuel' =>
      if x <? width t
      then
        let '(r, g') := uniform_real g in
        if datum_gt r p
        then
          match loop_iy (S (Z.to_nat block_size)) y x y sample t with
          | Some t' => loop_x fuel' (wrap32 (x + block_size)) y sample p g' t'
          | None => None
          end
        else loop_x fuel' (wrap32 (x + block_size)) y sample p g' t
      else Some (g, t)
  end.

(** Line 162: [for (y = 0; y < height; y += block_size)]. *)
Fixpoint loop_y (fuel : nat) (y sample : Z) (p : datum) (g : generator) (t : Tensor)
    : option (generator * Tensor) :=
  match fuel with
  | O => None
  | S fuel' =>
      if y <? height t
      then
        match loop_x (S (Z.to_nat (width t))) 0 y sample p g t with
        | Some (g', t') => loop_y fuel' (wrap32 (y + block_size)) sample p g' t'
        | None => None
        end
      else Some (g, t)
  end.

(** Lines 157-172: loss sampling over the loss-weight map of one batch slot. *)
Definition loss_sampling (sample : Z) (s : DatasetInputLayer) : outcome DatasetInputLayer :=
  match localized_error_output_ s with
  | None => Undefined
  | Some e =>
      match loop_y (S (Z.to_nat (height (data e)))) 0 sample
                   (loss_sampling_p_ s) (generator_ s) (data e) with
      | None => Timeout
      | Some (g, t) =>
          Done (set_generator_ g (set_localized_error_output_ (Some (with_data e t)) s))
      end
  end.

(** Lines 176-177: [localized_error_output_->data.Clear(0.0, sample)]. *)
Definition clear_weight (sample : Z) (s : DatasetInputLayer) : outcome DatasetInputLayer :=
  match localized_error_output_ s with
  | None => Undefined
  | Some e =>
      Done (set_localized_error_output_ (Some (with_data e (Clear 0%Q sample (data e)))) s)
  end.

(** Lines 117-177: the body of the batch loop for slot [sample]. *)
Definition FeedForward_sample (sample : Z) (s : DatasetInputLayer)
    : outcome DatasetInputLayer :=
  selection <- select_element s ;;
  let '(selected_element, force_no_weight, s) := selection in
  fetched <- fetch_sample sample selected_element force_no_weight s ;;
  let '(success, s) := fetched in
  s <- (if negb success then FATAL s else Done s) ;;
  s <- (if negb (testing_ s) && negb force_no_weight
        then loss_sampling sample s else Done s) ;;
  if force_no_weight then clear_weight sample s else Done s.

(** Line 116: [for (std::size_t sample = 0; sample < batch_size_; sample++)]. *)
Fixpoint FeedForward_loop (fuel : nat) (sample : Z) (s : DatasetInputLayer)
    : outcome DatasetInputLayer :=
  match fuel with
  | O => Timeout
  | S fuel' =>
      if sample <? batch_size_ s
      then s' <- FeedForward_sample sample s ;; FeedForward_loop fuel' (wrap64 (sample + 1)) s'
      else Done s
  end.

Definition FeedForward (s : DatasetInputLayer) : outcome DatasetInputLayer :=
  FeedForward_loop (S (Z.to_nat (batch_size_ s))) 0 s.

(** Consecutive batch slots, across calls: the loop body run on a list of slots. *)
Fixpoint run_samples (slots : list Z) (s : DatasetInputLayer) : outcome DatasetInputLayer :=
  match slots with
  | [] => Done s
  | sample :: slots' => s' <- FeedForward_sample sample s ;; run_samples slots' s'
  end.

(** [k] consecutive calls of [FeedForward]. *)
Fixpoint FeedForward_calls (k : nat) (s : DatasetInputLayer) : outcome DatasetInputLayer :=
  match k with
  | O => Done s
  | S k' => s' <- FeedForward s ;; FeedForward_calls k' s'
  end.

End Layer.

Arguments Done {_ _} a.
Arguments Fatal {_ _} s.
Arguments Undefined {_ _}.
Arguments Timeout {_ _}.

(** The state an operation leaves behind, whether it returned or halted. *)
Definition final_state `{StdRandom} (o : outcome DatasetInputLayer) : option DatasetInputLayer :=
  match o with
  | Done s => Some s
  | Fatal s => Some s
  | Undefined => None
  | Timeout => None
  end.

(** ** Vocabulary of the properties *)

Section Vocabulary.
Context `{StdRandom}.

(** The state after an operation, for a run that is known to return. *)
Definition state_of (s0 : DatasetInputLayer) (o : outcome DatasetInputLayer)
    : DatasetInputLayer :=
  match o with
  | Done s => s
  | Fatal s => s
  | _ => s0
  end.

(** The life cycle of a layer in a net: construct, create the outputs, connect
    them. *)
Definition boot (dataset : Dataset) (batch_size : Z) (loss_sampling_p : datum)
    (seed : Z) : outcome DatasetInputLayer :=
  let s := new_DatasetInputLayer dataset batch_size loss_sampling_p seed in
  let '(_, outputs) := CreateOutputs [] [] s in
  bind (Connect [] outputs s) (fun r => Done r.2).

(** The three outputs [FeedForward] writes are bound, and the extent of the
    loss-weight map leaves room for one block below [2 ^ 32], so that the
    [unsigned int] block counters do not wrap. *)
Definition ready (s : DatasetInputLayer) : bool :=
  match data_output_ s, label_output_ s, localized_error_output_ s with
  | Some _, Some _, Some e =>
      (width (data e) + block_size <=? 2 ^ 32) && (height (data e) + block_size <=? 2 ^ 32)
  | _, _, _ => false
  end.

(** The members no operation after the constructor assigns, and the mode. *)
Definition same_config (s s' : DatasetInputLayer) : Prop :=
  dataset_ s' = dataset_ s /\ batch_size_ s' = batch_size_ s
  /\ loss_sampling_p_ s' = loss_sampling_p_ s
  /\ elements_training_ s' = elements_training_ s
  /\ elements_testing_ s' = elements_testing_ s
  /\ testing_ s' = testing_ s.

Definition same_cursors (s s' : DatasetInputLayer) : Prop :=
  current_element_ s' = current_element_ s
  /\ current_element_testing_ s' = current_element_testing_ s
  /\ perm_ s' = perm_ s.

Definition same_shape (t t' : Tensor) : Prop :=
  samples t' = samples t /\ width t' = width t /\ height t' = height t /\ maps t' = maps t.

(** The number of blocks that cover an extent of [len] pixels. *)
Definition nblocks (len : Z) : nat := Z.to_nat ((len + block_size - 1) / block_size).

(** The block a pixel lies in, blocks counted row by row. *)
Definition block_index (t : Tensor) (a b : Z) : nat :=
  (Z.to_nat (b / block_size) * nblocks (width t) + Z.to_nat (a / block_size))%nat.

Definition in_image (t : Tensor) (a b : Z) : bool :=
  (0 <=? a) && (a <? width t) && (0 <=? b) && (b <? height t).

(** The loss-weight map after loss sampling, following the words of the spec:
    the image is cut into blocks of 12 x 12 pixels, clipped at its borders;
    block number [i] takes the [i]-th next draw of the generator; the weight of
    every pixel of the block, in channel 0 of the batch slot, becomes zero if
    the draw exceeds [p] and stays as it is otherwise. *)
Definition sampled_cells (p : datum) (g : generator) (sample : Z) (t : Tensor) : cells :=
  fun a b m k =>
    if in_image t a b && (m =? 0) && (k =? sample)
       && datum_gt (draw (block_index t a b) g) p
    then 0%Q else cell t a b m k.

(** The dataset serves every sample of a mode. *)
Definition training_fetch_ok (dataset : Dataset) : Prop :=
  forall d l e sample index, (GetTrainingSample dataset d l e sample index).1 = true.

Definition testing_fetch_ok (dataset : Dataset) : Prop :=
  forall d l e sample index, (GetTestingSample dataset d l e sample index).1 = true.

(** The states a layer built from the given arguments can be in: after the
    constructor, and after any public operation or batch slot, whether it
    returned or halted. *)
Inductive reachable (dataset : Dataset) (batch_size : Z) (loss_sampling_p : datum)
    (seed : Z) : DatasetInputLayer -> Prop :=
| reach_new :
    reachable dataset batch_size loss_sampling_p seed
      (new_DatasetInputLayer dataset batch_size loss_sampling_p seed)
| reach_Connect s inputs outputs r s' :
    reachable dataset batch_size loss_sampling_p seed s ->
    Connect inputs outputs s = Done (r, s') ->
    reachable dataset batch_size loss_sampling_p seed s'
| reach_SetTestingMode s testing :
    reachable dataset batch_size loss_sampling_p seed s ->
    reachable dataset batch_size loss_sampling_p seed (SetTestingMode testing s)
| reach_RedoPermutation s :
    reachable dataset batch_size loss_sampling_p seed s ->
    reachable dataset batch_size loss_sampling_p seed (RedoPermutation s)
| reach_sample s sample s' :
    reachable dataset batch_size loss_sampling_p seed s ->
    final_state (FeedForward_sample sample s) = Some s' ->
    reachable dataset batch_size loss_sampling_p seed s'
| reach_FeedForward s s' :
    reachable dataset batch_size loss_sampling_p seed s ->
    final_state (FeedForward s) = Some s' ->
    reachable dataset batch_size loss_sampling_p seed s'.


(** A connected layer in training mode whose cursor is inside the permutation,
    on a dataset that serves its training samples. *)
Definition training_ok (s : DatasetInputLayer) : Prop :=
  testing_ s = false /\ ready s = true /\ training_fetch_ok (dataset_ s)
  /\ 0 <= current_element_ s < Z.of_nat (length (perm_ s))
  /\ Z.of_nat (length (perm_ s)) < 2 ^ 32
  /\ batch_size_ s < 2 ^ 64.


(** [perm_] holds the training indices of the dataset, in some order. *)
Definition perm_invariant (dataset : Dataset) (s : DatasetInputLayer) : Prop :=
  elements_training_ s = wrap32 (GetTrainingSamples dataset)
  /\ perm_ s ≡ₚ seqZ 0 (elements_training_ s).

End Vocabulary.

Ltac to_prop :=
  rewrite ?andb_true_iff, ?andb_false_iff, ?negb_true_iff, ?negb_false_iff,
    ?Z.leb_le, ?Z.leb_gt, ?Z.ltb_lt, ?Z.ltb_ge, ?Z.eqb_eq, ?Z.eqb_neq in *.

Ltac case_if :=
  match goal with
  | |- context [if ?c then _ else _] => let E := fresh "E" in destruct c eqn:E
  end.

Ltac cells_eq := repeat case_if; try reflexivity; exfalso; to_prop; lia.

(** ** The remaining operations of the layer *)

Section Remaining.
Context `{StdRandom}.

(** Lines 181-183: no inputs, no backpropagation. *)
Definition BackPropagate (s : DatasetInputLayer) : DatasetInputLayer := s.

(** Lines 185-187. *)
Definition GetBatchSize (s : DatasetInputLayer) : Z := batch_size_ s.

(** Lines 189-191: read through to the dataset ([unsigned int]). *)
Definition GetSamplesInTestingSet (s : DatasetInputLayer) : Z :=
  wrap32 (GetTestingSamples (dataset_ s)).

(** Lines 193-195: read through to the dataset ([unsigned int]). *)
Definition GetSamplesInTrainingSet (s : DatasetInputLayer) : Z :=
  wrap32 (GetTrainingSamples (dataset_ s)).

(** Lines 217-223, in the build without OpenCL. *)
Definition IsOpenCLAware (s : DatasetInputLayer) : bool := false.

(** The part of the state that decides which training elements come next:
    the permutation, the training cursor and the generator. *)
Definition sampler_of (s : DatasetInputLayer) : list Z * Z * generator :=
  (perm_ s, current_element_ s, generator_ s).

(** Width and height of the bound loss-weight map. *)
Definition weight_extent (s : DatasetInputLayer) : option (Z * Z) :=
  match localized_error_output_ s with
  | Some e => Some (width (data e), height (data e))
  | None => None
  end.

(** One of the three outputs [FeedForward] dereferences is null. *)
Definition unconnected (s : DatasetInputLayer) : bool :=
  is_nullptr (data_output_ s) || is_nullptr (label_output_ s)
  || is_nullptr (localized_error_output_ s).

(** The mode and the batch slot of the fetches of a log, in order. *)
Fixpoint fetch_slots (l : list Event) : list (bool * Z) :=
  match l with
  | [] => []
  | EvFetch testing sample _ _ :: l' => (testing, sample) :: fetch_slots l'
  | EvShuffle :: l' => fetch_slots l'
  end.

(** [t'] has the shape of [t] and differs from it at most by zeros written
    into batch slot [sample]. *)
Definition only_zeroed (sample : Z) (t t' : Tensor) : Prop :=
  same_shape t t'
  /\ forall a b m k,
       cell t' a b m k = cell t a b m k \/ (cell t' a b m k = 0%Q /\ k = sample).




End Remaining.

(** ** The outputs as shared objects

    The four output members of the layer are [CombinedTensor*]. [Connect]
    takes them from the vector it is given and does not require them to point
    to different objects, and every access of [FeedForward] to a tensor goes
    through one of them. In this section the tensor pairs live in a store, a
    pointer is an address of the store, and two members may hold the same
    address; the operations are those of the sections above, with every
    access to an output made through the store. *)

Section Shared.
Context `{StdRandom}.

Notation "x <- c1 ;; c2" := (bind c1 (fun x => c2))
  (at level 100, c1 at next level, right associativity).

(** A pointer is an index of the store, a list of tensor pairs; [None] is
    [nullptr], an index outside the store is a dangling pointer. *)
Definition pointer : Type := option nat.

(** The layer and the store of the process. [members] holds the members of the
    layer other than the four outputs (its own output fields are not read in
    this section); the four outputs are the pointers. *)
Record SharedLayer : Type := {
  members : DatasetInputLayer;
  data_output_at : pointer;
  label_output_at : pointer;
  helper_output_at : pointer;
  localized_error_output_at : pointer;
  objects : list CombinedTensor
}.

Definition with_members (m : DatasetInputLayer) (st : SharedLayer) : SharedLayer :=
  {| members := m; data_output_at := data_output_at st;
     label_output_at := label_output_at st; helper_output_at := helper_output_at st;
     localized_error_output_at := localized_error_output_at st;
     objects := objects st |}.

Definition with_objects (o : list CombinedTensor) (st : SharedLayer) : SharedLayer :=
  {| members := members st; data_output_at := data_output_at st;
     label_output_at := label_output_at st; helper_output_at := helper_output_at st;
     localized_error_output_at := localized_error_output_at st;
     objects := o |}.

(** The object a pointer leads to, if any. *)
Definition load (o : list CombinedTensor) (p : pointer) : option CombinedTensor :=
  match p with
  | Some a => o !! a
  | None => None
  end.

(** The layer as the sections above see it: every output member replaced by
    the object it points to. *)
Definition view (st : SharedLayer) : DatasetInputLayer :=
  bind_outputs (load (objects st) (data_output_at st))
               (load (objects st) (label_output_at st))
               (load (objects st) (helper_output_at st))
               (load (objects st) (localized_error_output_at st))
               (members st).

(** The four output members, as [Connect] stored them. *)
Definition output_pointers (st : SharedLayer) : pointer * pointer * pointer * pointer :=
  (data_output_at st, label_output_at st, helper_output_at st,
   localized_error_output_at st).

(** Two pointers that do not lead to one object. *)
Definition differ (p q : pointer) : bool :=
  match p, q with
  | Some a, Some b => negb (a =? b)%nat
  | _, _ => true
  end.

(** No two of the four output members point to the same object. *)
Definition separate (st : SharedLayer) : bool :=
  differ (data_output_at st) (label_output_at st)
  && differ (data_output_at st) (localized_error_output_at st)
  && differ (label_output_at st) (localized_error_output_at st)
  && differ (helper_output_at st) (data_output_at st)
  && differ (helper_output_at st) (label_output_at st)
  && differ (helper_output_at st) (localized_error_output_at st).

(** Lines 55-83: [new] gives four objects at the next free addresses. *)
Definition CreateOutputs_shared (inputs outputs : list pointer) (st : SharedLayer)
    : bool * list pointer * SharedLayer :=
  if negb (length inputs =? 0)%nat then (false, outputs, st)
  else
    let m := members st in
    let w := wrap32 (GetWidth (dataset_ m)) in
    let h := wrap32 (GetHeight (dataset_ m)) in
    let data_output := new_CombinedTensor (batch_size_ m) w h (input_maps_ m) in
    let label_output := new_CombinedTensor (batch_size_ m) w h (label_maps_ m) in
    let helper_output := new_CombinedTensor (batch_size_ m) w h 2 in
    let localized_error_output := new_CombinedTensor (batch_size_ m) w h 1 in
    let a := length (objects st) in
    (true,
     outputs ++ [Some a] ++ [Some (S a)] ++ [Some (S (S a))] ++ [Some (S (S (S a)))],
     with_objects (objects st ++ [data_output; label_output; helper_output;
                                  localized_error_output]) st).

Definition is_null (p : pointer) : bool :=
  match p with None => true | Some _ => false end.

(** Lines 85-107: the pointers are compared with [nullptr] and stored; they
    are not dereferenced and not compared with each other. *)
Definition Connect_shared (inputs outputs : list pointer) (st : SharedLayer)
    : outcome (bool * SharedLayer) :=
  data_output <- vector_at outputs 0 ;;
  label_output <- vector_at outputs 1 ;;
  helper_output <- vector_at outputs 2 ;;
  localized_error_output <- vector_at outputs 3 ;;
  if is_null data_output || is_null label_output || is_null localized_error_output
  then Done (false, st)
  else
    let valid := (length inputs =? 0)%nat && (length outputs =? 4)%nat in
    if valid
    then Done (valid,
               {| members := members st; data_output_at := data_output;
                  label_output_at := label_output; helper_output_at := helper_output;
                  localized_error_output_at := localized_error_output;
                  objects := objects st |})
    else Done (valid, st).

(** Lines 145-150: the Dataset receives references to the value tensors of the
    data, label and weight outputs. Modelled from the spec for the part of the
    Dataset: a fetch fills the data, the label and the weight tensor, in this
    order, so that of two references to one object the later content stays. *)
Definition fetch_sample_shared (sample selected_element : Z) (force_no_weight : bool)
    (st : SharedLayer) : outcome (bool * SharedLayer) :=
  match data_output_at st, label_output_at st, localized_error_output_at st with
  | Some pd, Some pl, Some pe =>
      match objects st !! pd, objects st !! pl, objects st !! pe with
      | Some d, Some l, Some e =>
          let m := members st in
          let get := if testing_ m then GetTestingSample else GetTrainingSample in
          let '(success, (cd, cl, ce)) :=
            get (dataset_ m) (data d) (data l) (data e) sample selected_element in
          Done (success,
                with_members
                  (log_event (EvFetch (testing_ m) sample selected_element force_no_weight) m)
                  (with_objects
                     (<[pe := with_data e (with_cells (data e) ce)]>
                        (<[pl := with_data l (with_cells (data l) cl)]>
                           (<[pd := with_data d (with_cells (data d) cd)]> (objects st))))
                     st))
      | _, _, _ => Undefined
      end
  | _, _, _ => Undefined
  end.

(** Lines 157-172: the loops read and write the object behind
    [localized_error_output_] and no other. *)
Definition loss_sampling_shared (sample : Z) (st : SharedLayer) : outcome SharedLayer :=
  match localized_error_output_at st with
  | None => Undefined
  | Some pe =>
      match objects st !! pe with
      | None => Undefined
      | Some e =>
          let m := members st in
          match loop_y (S (Z.to_nat (height (data e)))) 0 sample
                       (loss_sampling_p_ m) (generator_ m) (data e) with
          | None => Timeout
          | Some (g, t) =>
              Done (with_members (set_generator_ g m)
                      (with_objects (<[pe := with_data e t]> (objects st)) st))
          end
      end
  end.

(** Lines 176-177. *)
Definition clear_weight_shared (sample : Z) (st : SharedLayer) : outcome SharedLayer :=
  match localized_error_output_at st with
  | None => Undefined
  | Some pe =>
      match objects st !! pe with
      | None => Undefined
      | Some e =>
          Done (with_objects
                  (<[pe := with_data e (Clear 0%Q sample (data e))]> (objects st)) st)
      end
  end.

(** Lines 117-177: the body of the batch loop for slot [sample]. The index
    selection reads and writes no output. *)
Definition FeedForward_sample_shared (sample : Z) (st : SharedLayer)
    : outcome SharedLayer :=
  selection <- select_element (members st) ;;
  let '(selected_element, force_no_weight, m) := selection in
  fetched <- fetch_sample_shared sample selected_element force_no_weight
               (with_members m st) ;;
  let '(success, st) := fetched in
  st <- (if negb success then FATAL (view st) else Done st) ;;
  st <- (if negb (testing_ (members st)) && negb force_no_weight
         then loss_sampling_shared sample st else Done st) ;;
  if force_no_weight then clear_weight_shared sample st else Done st.

(** Line 116. *)
Fixpoint FeedForward_loop_shared (fuel : nat) (sample : Z) (st : SharedLayer)
    : outcome SharedLayer :=
  match fuel with
  | O => Timeout
  | S fuel' =>
      if sample <? batch_size_ (members st)
      then st' <- FeedForward_sample_shared sample st ;;
           FeedForward_loop_shared fuel' (wrap64 (sample + 1)) st'
      else Done st
  end.

Definition FeedForward_shared (st : SharedLayer) : outcome SharedLayer :=
  FeedForward_loop_shared (S (Z.to_nat (batch_size_ (members st)))) 0 st.

(** The outcome of an operation on the store, with the layer seen through
    [view]. *)
Definition outcome_view (o : outcome SharedLayer) : outcome DatasetInputLayer :=
  match o with
  | Done st => Done (view st)
  | Fatal s => Fatal s
  | Undefined => Undefined
  | Timeout => Timeout
  end.

End Shared.

(** ** A concrete random library and concrete datasets

    A linear congruential generator, a draw in thousandths and a shuffle that
    repeatedly picks one of the remaining elements. They show that the
    interface [StdRandom] is inhabited and let the model run on examples. *)
Module Demo.

Definition lcg (g : Z) : Z := (g * 1103515245 + 12345) mod 2 ^ 31.

Definition lcg_real (g : Z) : datum * Z :=
  (Qmake (lcg g mod 1000) 1000, lcg g).

Fixpoint pick_shuffle (fuel : nat) (l : list Z) (g : Z) : list Z * Z :=
  match fuel with
  | O => (l, g)
  | S fuel' =>
      let g' := lcg g in
      let j := Z.to_nat (g' mod Z.of_nat (length l)) in
      match l !! j with
      | Some x => let '(r, g'') := pick_shuffle fuel' (delete j l) g' in (x :: r, g'')
      | None => (l, g')
      end
  end.

Definition lcg_shuffle (l : list Z) (g : Z) : list Z * Z := pick_shuffle (length l) l g.

Lemma lcg_real_range (g : Z) : (0 <= (lcg_real g).1 < 1)%Q.
Proof.
  unfold lcg_real, Qle, Qlt; simpl.
  pose proof (Z.mod_pos_bound (lcg g) 1000 ltac:(lia)). lia.
Qed.

Lemma pick_shuffle_Permutation (fuel : nat) : forall l g, (pick_shuffle fuel l g).1 ≡ₚ l.
Proof.
  induction fuel as [|fuel IH]; intros l g; simpl; [done|].
  destruct (l !! _) as [x|] eqn:Hx; [|done].
  specialize (IH (delete (Z.to_nat (lcg g mod Z.of_nat (length l))) l) (lcg g)).
  destruct (pick_shuffle fuel _ _) as [r g'']; simpl in *.
  rewrite IH. symmetry. by apply delete_Permutation.
Qed.

Definition lcg_random : StdRandom :=
  {| generator := Z;
     seed_generator := fun seed => seed;
     uniform_real := lcg_real;
     shuffle := lcg_shuffle;
     uniform_real_range := lcg_real_range;
     shuffle_Permutation := fun l g => pick_shuffle_Permutation (length l) l g |}.

(** A fetch that always succeeds: it writes 1 over the batch slot of the three
    tensors. *)
Definition fill_slot (t : Tensor) (sample : Z) : cells :=
  fun x y map sample' => if sample' =? sample then 1%Q else cell t x y map sample'.

Definition fetch_ok (d l e : Tensor) (sample index : Z) : bool * (cells * cells * cells) :=
  (true, (fill_slot d sample, fill_slot l sample, fill_slot e sample)).

(** A fetch that fails on sample index [bad]. *)
Definition fetch_unless (bad : Z) (d l e : Tensor) (sample index : Z)
    : bool * (cells * cells * cells) :=
  (negb (index =? bad), (fill_slot d sample, fill_slot l sample, fill_slot e sample)).

(** Five training samples, two testing samples, 13 x 13 pixels. *)
Definition toy_dataset : Dataset :=
  {| GetWidth := 13; GetHeight := 13; GetInputMaps := 3; GetLabelMaps := 1;
     GetTrainingSamples := 5; GetTestingSamples := 2;
     GetTrainingSample := fetch_ok; GetTestingSample := fetch_ok |}.

(** The same dataset with a broken training sample 2. *)
Definition broken_dataset : Dataset :=
  {| GetWidth := 13; GetHeight := 13; GetInputMaps := 3; GetLabelMaps := 1;
     GetTrainingSamples := 5; GetTestingSamples := 2;
     GetTrainingSample := fetch_unless 2; GetTestingSample := fetch_ok |}.

#[local] Existing Instance lcg_random.

(** The layers of the examples: batch size 3, p = 1/2, seed 42, connected to
    the outputs [CreateOutputs] makes. *)
Definition toy_new : DatasetInputLayer := new_DatasetInputLayer toy_dataset 3 (1 # 2) 42.

Definition toy_layer : DatasetInputLayer :=
  state_of toy_new (boot toy_dataset 3 (1 # 2) 42).

Definition toy_testing : DatasetInputLayer := SetTestingMode true toy_layer.

Definition broken_layer : DatasetInputLayer :=
  state_of (new_DatasetInputLayer broken_dataset 3 (1 # 2) 42)
           (boot broken_dataset 3 (1 # 2) 42).

(** A dataset without training samples, and its layer. *)
Definition empty_dataset : Dataset :=
  {| GetWidth := 13; GetHeight := 13; GetInputMaps := 3; GetLabelMaps := 1;
     GetTrainingSamples := 0; GetTestingSamples := 2;
     GetTrainingSample := fetch_ok; GetTestingSample := fetch_ok |}.

Definition empty_layer : DatasetInputLayer :=
  state_of (new_DatasetInputLayer empty_dataset 3 (1 # 2) 42)
           (boot empty_dataset 3 (1 # 2) 42).

(** The toy layer with batch size 2 and p = 1/4, and with p = -1/2. *)
Definition toy_layer_quarter : DatasetInputLayer :=
  state_of toy_new (boot toy_dataset 2 (1 # 4) 42).

Definition toy_layer_negative : DatasetInputLayer :=
  state_of toy_new (boot toy_dataset 3 (-1 # 2) 42).

(** The toy layer in a store, bound to four objects of its own. *)
Definition toy_shared : SharedLayer :=
  {| members := toy_new;
     data_output_at := Some 0%nat; label_output_at := Some 1%nat;
     helper_output_at := Some 2%nat; localized_error_output_at := Some 3%nat;
     objects := [new_CombinedTensor 3 13 13 3; new_CombinedTensor 3 13 13 1;
                 new_CombinedTensor 3 13 13 2; new_CombinedTensor 3 13 13 1] |}.

(** A new layer with p = -1/2 beside a store of one tensor pair, and the same
    layer with all four outputs bound to that one object. *)
Definition toy_unbound : SharedLayer :=
  {| members := new_DatasetInputLayer toy_dataset 3 (-1 # 2) 42;
     data_output_at := None; label_output_at := None;
     helper_output_at := None; localized_error_output_at := None;
     objects := [new_CombinedTensor 3 13 13 1] |}.

Definition toy_aliased : SharedLayer :=
  {| members := new_DatasetInputLayer toy_dataset 3 (-1 # 2) 42;
     data_output_at := Some 0%nat; label_output_at := Some 0%nat;
     helper_output_at := Some 0%nat; localized_error_output_at := Some 0%nat;
     objects := [new_CombinedTensor 3 13 13 1] |}.

End Demo.

(** * Properties *)

Lemma wrap32_small (z : Z) : 0 <= z < 2 ^ 32 -> wrap32 z = z.
Proof. intros Hz. unfold wrap32. by apply Z.mod_small. Qed.

Lemma wrap32_range (z : Z) : 0 <= wrap32 z < 2 ^ 32.
Proof. unfold wrap32. apply Z.mod_pos_bound. lia. Qed.

Lemma wrap64_small (z : Z) : 0 <= z < 2 ^ 64 -> wrap64 z = z.
Proof. intros Hz. unfold wrap64. by apply Z.mod_small. Qed.

Section Properties.
Context `{StdRandom}.

Implicit Types s : DatasetInputLayer.

(** ** SetTestingMode *)

(** C2 (amended). [SetTestingMode(true)] resets the testing cursor to 0 when
    the call changes the mode, that is when the layer was in training mode; a
    call on a layer that is already in testing mode leaves the cursor as it is. *)
Theorem SetTestingMode_true_cursor s :
  current_element_testing_ (SetTestingMode true s)
  = if testing_ s then current_element_testing_ s else 0.
Proof. unfold SetTestingMode. by destruct (testing_ s). Qed.

Lemma SetTestingMode_testing (b : bool) s : testing_ (SetTestingMode b s) = b.
Proof. unfold SetTestingMode. by destruct b, (testing_ s). Qed.

Lemma SetTestingMode_perm (b : bool) s : perm_ (SetTestingMode b s) = perm_ s.
Proof. unfold SetTestingMode. by destruct b, (testing_ s). Qed.

(** ** Connect *)

Lemma Connect_cons4 (inputs rest : list (option CombinedTensor))
    (d l h e : option CombinedTensor) s :
  Connect inputs (d :: l :: h :: e :: rest) s
  = let valid :=
      negb (is_nullptr d) && negb (is_nullptr l) && negb (is_nullptr e)
      && (length inputs =? 0)%nat && (length rest =? 0)%nat in
    Done (valid, if valid then bind_outputs d l h e s else s).
Proof.
  unfold Connect; simpl.
  destruct d, l, e; simpl; try reflexivity;
    destruct inputs, rest; reflexivity.
Qed.

(** C9 (amended). Given at least four outputs, [Connect] returns true if and
    only if there are no inputs, exactly four outputs, and the data, label and
    localized-error outputs are non-null; the helper output is not checked. It
    binds the four outputs only when it returns true and leaves the layer
    unchanged when it returns false. *)
Theorem Connect_four_outputs (inputs rest : list (option CombinedTensor))
    (d l h e : option CombinedTensor) s :
  let valid :=
    negb (is_nullptr d) && negb (is_nullptr l) && negb (is_nullptr e)
    && (length inputs =? 0)%nat && (length rest =? 0)%nat in
  Connect inputs (d :: l :: h :: e :: rest) s
  = Done (valid, if valid then bind_outputs d l h e s else s).
Proof.
  unfold Connect, bind_outputs; simpl.
  destruct d, l, e; simpl; try reflexivity;
    destruct inputs, rest; reflexivity.
Qed.

(** C10. [Connect] reads [outputs[0]] to [outputs[3]] before the arity check:
    its vector accesses are all in range exactly when the caller passes at
    least four outputs, and with fewer the out-of-range access is reached
    although the check [outputs.size() == 4] would have rejected the call. *)
Theorem Connect_in_bounds (inputs outputs : list (option CombinedTensor)) s :
  Connect inputs outputs s <> Undefined <-> (4 <= length outputs)%nat.
Proof.
  destruct outputs as [|d [|l [|h [|e rest]]]]; simpl;
    try (split; [intros Hc; by elim Hc | lia]).
  split; [lia | intros _].
  unfold Connect; simpl.
  destruct d, l, e; simpl; try discriminate;
    destruct inputs, rest; discriminate.
Qed.

(** ** The steps of one batch slot *)

Lemma select_element_testing s :
  testing_ s = true ->
  let c' := wrap32 (current_element_testing_ s + 1) in
  let padding := elements_testing_ s <=? c' in
  select_element s
  = Done (if padding then 0 else current_element_testing_ s, padding,
          set_current_element_testing_ c' s).
Proof.
  intros Ht. unfold select_element. rewrite Ht. simpl.
  by destruct (elements_testing_ s <=? _).
Qed.

Lemma select_element_training s (e : Z) :
  testing_ s = false ->
  perm_ s !! Z.to_nat (current_element_ s) = Some e ->
  let c' := wrap32 (current_element_ s + 1) in
  select_element s
  = Done (e, false,
          if Z.of_nat (length (perm_ s)) <=? c'
          then RedoPermutation (set_current_element_ 0 (set_current_element_ c' s))
          else set_current_element_ c' s).
Proof.
  intros Ht He. unfold select_element, vector_at. rewrite Ht, He. simpl.
  by destruct (Z.of_nat (length (perm_ s)) <=? _).
Qed.

Lemma select_element_training_inv s (e : Z) (fnw : bool) s1 :
  testing_ s = false ->
  select_element s = Done (e, fnw, s1) ->
  perm_ s !! Z.to_nat (current_element_ s) = Some e.
Proof.
  intros Ht. unfold select_element, vector_at. rewrite Ht.
  destruct (perm_ s !! _) as [e'|]; simpl; [|discriminate].
  destruct (_ <=? _); intros [= -> _ _]; reflexivity.
Qed.

Lemma select_element_not_Fatal s s' : select_element s <> Fatal s'.
Proof.
  unfold select_element, vector_at.
  destruct (testing_ s); simpl.
  - destruct (_ <=? _); discriminate.
  - destruct (perm_ s !! _); simpl; [|discriminate].
    destruct (_ <=? _); discriminate.
Qed.

Lemma fetch_sample_not_Fatal (sample e : Z) (fnw : bool) s s' :
  fetch_sample sample e fnw s <> Fatal s'.
Proof.
  unfold fetch_sample.
  destruct (data_output_ s), (label_output_ s), (localized_error_output_ s);
    try discriminate.
  destruct (_ (dataset_ s) _ _ _ _ _) as [b [[cd cl] ce]]. discriminate.
Qed.

Lemma loss_sampling_not_Fatal (sample : Z) s s' : loss_sampling sample s <> Fatal s'.
Proof.
  unfold loss_sampling. destruct (localized_error_output_ s); [|discriminate].
  destruct (loop_y _ _ _ _ _ _) as [[g t]|]; discriminate.
Qed.

Lemma clear_weight_not_Fatal (sample : Z) s s' : clear_weight sample s <> Fatal s'.
Proof. unfold clear_weight. destruct (localized_error_output_ s); discriminate. Qed.

(** The slot body returns exactly when its four steps return in turn. *)
Lemma FeedForward_sample_Done (sample : Z) s s' :
  FeedForward_sample sample s = Done s' <->
  exists (e : Z) (fnw : bool) s1 s2 s3,
    select_element s = Done (e, fnw, s1)
    /\ fetch_sample sample e fnw s1 = Done (true, s2)
    /\ (if negb (testing_ s2) && negb fnw then loss_sampling sample s2 else Done s2) = Done s3
    /\ (if fnw then clear_weight sample s3 else Done s3) = Done s'.
Proof.
  unfold FeedForward_sample, FATAL. split.
  - destruct (select_element s) as [[[e fnw] s1]| | |]; simpl; try discriminate.
    destruct (fetch_sample sample e fnw s1) as [[[] s2]| | |] eqn:Hf; simpl;
      try discriminate.
    destruct (if negb (testing_ s2) && negb fnw then _ else _) as [s3| | |] eqn:Hl;
      simpl; try discriminate.
    intros Hc. by exists e, fnw, s1, s2, s3.
  - intros (e & fnw & s1 & s2 & s3 & -> & Hf & Hl & Hc); simpl.
    rewrite Hf; simpl. rewrite Hl; simpl. exact Hc.
Qed.

(** The slot body halts exactly when the fetch reports a failure. *)
Lemma FeedForward_sample_Fatal (sample : Z) s s' :
  FeedForward_sample sample s = Fatal s' <->
  exists (e : Z) (fnw : bool) s1,
    select_element s = Done (e, fnw, s1)
    /\ fetch_sample sample e fnw s1 = Done (false, s').
Proof.
  unfold FeedForward_sample, FATAL. split.
  - destruct (select_element s) as [[[e fnw] s1]|s1| |] eqn:Hs; simpl; try discriminate.
    2:{ by apply select_element_not_Fatal in Hs. }
    destruct (fetch_sample sample e fnw s1) as [[[] s2]|s2| |] eqn:Hf; simpl;
      try discriminate.
    + destruct (if negb (testing_ s2) && negb fnw then _ else _) as [s3|s3| |] eqn:Hl;
        simpl; try discriminate.
      * destruct fnw; [|discriminate]. intros Hc. by apply clear_weight_not_Fatal in Hc.
      * destruct (negb (testing_ s2) && negb fnw); [|discriminate].
        by apply loss_sampling_not_Fatal in Hl.
    + intros [= ->]. by exists e, fnw, s1.
    + by apply fetch_sample_not_Fatal in Hf.
  - intros (e & fnw & s1 & -> & Hf); simpl. by rewrite Hf.
Qed.


(** ** The loss sampling loops *)

Lemma same_shape_refl (t : Tensor) : same_shape t t.
Proof. by repeat split. Qed.

Lemma same_shape_trans (t1 t2 t3 : Tensor) :
  same_shape t1 t2 -> same_shape t2 t3 -> same_shape t1 t3.
Proof. unfold same_shape. intros (?&?&?&?) (?&?&?&?). repeat split; congruence. Qed.

Lemma loop_ix_S (fuel : nat) (ix x iy sample : Z) (t : Tensor) :
  loop_ix (S fuel) ix x iy sample t
  = if (ix <? wrap32 (x + block_size)) && (ix <? width t)
    then loop_ix fuel (wrap32 (ix + 1)) x iy sample (data_ptr_store ix iy 0 sample 0%Q t)
    else Some t.
Proof. reflexivity. Qed.

Lemma loop_iy_S (fuel : nat) (iy x y sample : Z) (t : Tensor) :
  loop_iy (S fuel) iy x y sample t
  = if (iy <? wrap32 (y + block_size)) && (iy <? height t)
    then match loop_ix (S (Z.to_nat block_size)) x x iy sample t with
         | Some t' => loop_iy fuel (wrap32 (iy + 1)) x y sample t'
         | None => None
         end
    else Some t.
Proof. reflexivity. Qed.

Lemma loop_x_S (fuel : nat) (x y sample : Z) (p : datum) (g : generator) (t : Tensor) :
  loop_x (S fuel) x y sample p g t
  = if x <? width t
    then if datum_gt (uniform_real g).1 p
         then match loop_iy (S (Z.to_nat block_size)) y x y sample t with
              | Some t' => loop_x fuel (wrap32 (x + block_size)) y sample p (uniform_real g).2 t'
              | None => None
              end
         else loop_x fuel (wrap32 (x + block_size)) y sample p (uniform_real g).2 t
    else Some (g, t).
Proof. cbn [loop_x]. destruct (x <? width t); [|done]. by destruct (uniform_real g). Qed.

Lemma loop_y_S (fuel : nat) (y sample : Z) (p : datum) (g : generator) (t : Tensor) :
  loop_y (S fuel) y sample p g t
  = if y <? height t
    then match loop_x (S (Z.to_nat (width t))) 0 y sample p g t with
         | Some (g', t') => loop_y fuel (wrap32 (y + block_size)) sample p g' t'
         | None => None
         end
    else Some (g, t).
Proof. reflexivity. Qed.

Lemma loop_ix_spec (x iy sample : Z) :
  0 <= x -> x + block_size < 2 ^ 32 ->
  forall (fuel : nat) (ix : Z) (t : Tensor),
    x <= ix ->
    (Z.to_nat (Z.min (x + block_size) (width t) - ix) < fuel)%nat ->
    exists t',
      loop_ix fuel ix x iy sample t = Some t'
      /\ same_shape t t'
      /\ forall a b m k,
           cell t' a b m k
           = if (ix <=? a) && (a <? x + block_size) && (a <? width t)
                && (b =? iy) && (m =? 0) && (k =? sample)
             then 0%Q else cell t a b m k.
Proof.
  unfold block_size. intros Hx Hx'.
  induction fuel as [|fuel IH]; intros ix t Hix Hf; [lia|].
  rewrite loop_ix_S. unfold block_size. rewrite (wrap32_small (x + 12)) by lia.
  destruct ((ix <? x + 12) && (ix <? width t)) eqn:E.
  - to_prop. rewrite wrap32_small by lia.
    destruct (IH (ix + 1) (data_ptr_store ix iy 0 sample 0%Q t)) as (t' & -> & Hs & Hc);
      [lia | simpl; lia |].
    exists t'. split; [done|]. split; [exact Hs|].
    intros a b m k. rewrite Hc. simpl. cells_eq.
  - exists t. split; [done|]. split; [apply same_shape_refl|].
    intros a b m k. cells_eq.
Qed.

Lemma loop_iy_spec (x y sample : Z) :
  0 <= x -> x + block_size < 2 ^ 32 -> 0 <= y -> y + block_size < 2 ^ 32 ->
  forall (fuel : nat) (iy : Z) (t : Tensor),
    y <= iy ->
    (Z.to_nat (Z.min (y + block_size) (height t) - iy) < fuel)%nat ->
    exists t',
      loop_iy fuel iy x y sample t = Some t'
      /\ same_shape t t'
      /\ forall a b m k,
           cell t' a b m k
           = if (x <=? a) && (a <? x + block_size) && (a <? width t)
                && (iy <=? b) && (b <? y + block_size) && (b <? height t)
                && (m =? 0) && (k =? sample)
             then 0%Q else cell t a b m k.
Proof.
  intros Hx Hx' Hy Hy'.
  induction fuel as [|fuel IH]; intros iy t Hiy Hf; [unfold block_size in *; lia|].
  rewrite loop_iy_S.
  destruct (loop_ix_spec x iy sample Hx Hx' (S (Z.to_nat block_size)) x t)
    as (t1 & Hl & (Hs1 & Hw1 & Hh1 & Hm1) & Hc1); [lia | unfold block_size; lia |].
  rewrite Hl. clear Hl.
  unfold block_size in *. rewrite (wrap32_small (y + 12)) by lia.
  destruct ((iy <? y + 12) && (iy <? height t)) eqn:E.
  - to_prop. rewrite wrap32_small by lia.
    destruct (IH (iy + 1) t1) as (t' & -> & Hs & Hc); [lia | lia |].
    exists t'. split; [done|].
    split; [by eapply same_shape_trans|].
    intros a b m k. rewrite Hc, Hc1, Hw1, Hh1. cells_eq.
  - exists t. split; [done|]. split; [apply same_shape_refl|].
    intros a b m k. cells_eq.
Qed.

Lemma skip_S (n : nat) (g : generator) : skip (S n) g = skip n (uniform_real g).2.
Proof. reflexivity. Qed.

Lemma skip_add (n m : nat) (g : generator) : skip (n + m) g = skip m (skip n g).
Proof. revert g. induction n as [|n IH]; intros g; simpl; [done|]. apply IH. Qed.

Lemma draw_add (n m : nat) (g : generator) : draw (n + m) g = draw m (skip n g).
Proof. unfold draw. by rewrite skip_add. Qed.

Lemma nblocks_step (len : Z) : 0 < len -> nblocks len = S (nblocks (len - block_size)).
Proof.
  intros Hl. unfold nblocks, block_size. rewrite <- Z2Nat.inj_succ.
  - f_equal. Z.to_euclidean_division_equations. lia.
  - Z.to_euclidean_division_equations. lia.
Qed.

Lemma nblocks_nonpos (len : Z) : len <= 0 -> nblocks len = O.
Proof.
  intros Hl. unfold nblocks, block_size.
  assert ((len + 12 - 1) / 12 <= 0) by (Z.to_euclidean_division_equations; lia). lia.
Qed.

Lemma nblocks_le (len : Z) : (nblocks len <= Z.to_nat len)%nat.
Proof.
  unfold nblocks, block_size.
  destruct (Z.le_gt_cases len 0).
  - assert ((len + 12 - 1) / 12 <= 0) by (Z.to_euclidean_division_equations; lia). lia.
  - apply Z2Nat.inj_le; [|lia|]; Z.to_euclidean_division_equations; lia.
Qed.

Lemma loop_x_spec (y sample : Z) (p : datum) :
  0 <= y -> y + block_size < 2 ^ 32 ->
  forall (fuel : nat) (x : Z) (g : generator) (t : Tensor),
    0 <= x -> width t + block_size <= 2 ^ 32 ->
    (nblocks (width t - x) < fuel)%nat ->
    exists t',
      loop_x fuel x y sample p g t = Some (skip (nblocks (width t - x)) g, t')
      /\ same_shape t t'
      /\ forall a b m k,
           cell t' a b m k
           = if (x <=? a) && (a <? width t)
                && (y <=? b) && (b <? y + block_size) && (b <? height t)
                && (m =? 0) && (k =? sample)
                && datum_gt (draw (Z.to_nat ((a - x) / block_size)) g) p
             then 0%Q else cell t a b m k.
Proof.
  intros Hy Hy'.
  induction fuel as [|fuel IH]; intros x g t Hx Hw Hf; [lia|].
  rewrite loop_x_S.
  destruct (x <? width t) eqn:E.
  - to_prop.
    assert (Hx' : x + block_size < 2 ^ 32) by (unfold block_size in *; lia).
    rewrite (wrap32_small (x + block_size)) by (unfold block_size in *; lia).
    rewrite nblocks_step in Hf |- * by lia.
    replace (width t - x - block_size) with (width t - (x + block_size)) in * by lia.
    rewrite skip_S.
    assert (Hd : forall a, x + block_size <= a ->
              draw (Z.to_nat ((a - x) / block_size)) g
              = draw (Z.to_nat ((a - (x + block_size)) / block_size)) (uniform_real g).2).
    { intros a Ha. unfold block_size in *.
      replace (Z.to_nat ((a - x) / 12)) with (S (Z.to_nat ((a - (x + 12)) / 12))).
      - reflexivity.
      - rewrite <- Z2Nat.inj_succ; [f_equal|]; Z.to_euclidean_division_equations; lia. }
    assert (Hd0 : forall a, x <= a < x + block_size ->
              draw (Z.to_nat ((a - x) / block_size)) g = (uniform_real g).1).
    { intros a Ha. unfold block_size in *. replace ((a - x) / 12) with 0; [reflexivity|].
      Z.to_euclidean_division_equations; lia. }
    destruct (datum_gt (uniform_real g).1 p) eqn:Hr.
    + destruct (loop_iy_spec x y sample Hx Hx' Hy Hy' (S (Z.to_nat block_size)) y t)
        as (t1 & Hl & (Hs1 & Hw1 & Hh1 & Hm1) & Hc1); [lia | unfold block_size; lia |].
      rewrite Hl. clear Hl.
      destruct (IH (x + block_size) (uniform_real g).2 t1) as (t' & Hl' & Hs & Hc);
        [unfold block_size; lia | lia | rewrite Hw1; lia |].
      rewrite Hw1 in Hl'. rewrite Hl'.
      exists t'. split; [done|].
      split; [by eapply same_shape_trans|].
      intros a b m k. rewrite Hc, Hc1, Hw1, Hh1.
      destruct (Z.lt_ge_cases a (x + block_size)) as [Ha|Ha].
      * destruct (Z.le_gt_cases x a) as [Ha'|Ha'].
        -- rewrite (Hd0 a) by lia. rewrite Hr. unfold block_size in *. cells_eq.
        -- unfold block_size in *. cells_eq.
      * rewrite (Hd a) by lia.
        destruct (datum_gt (draw _ (uniform_real g).2) p); unfold block_size in *; cells_eq.
    + destruct (IH (x + block_size) (uniform_real g).2 t) as (t' & -> & Hs & Hc);
        [unfold block_size; lia | lia | lia |].
      exists t'. split; [done|]. split; [exact Hs|].
      intros a b m k. rewrite Hc.
      destruct (Z.lt_ge_cases a (x + block_size)) as [Ha|Ha].
      * destruct (Z.le_gt_cases x a) as [Ha'|Ha'].
        -- rewrite (Hd0 a) by lia. rewrite Hr. unfold block_size in *. cells_eq.
        -- unfold block_size in *. cells_eq.
      * rewrite (Hd a) by lia.
        destruct (datum_gt (draw _ (uniform_real g).2) p); unfold block_size in *; cells_eq.
  - to_prop. rewrite nblocks_nonpos by lia. simpl.
    exists t. split; [done|]. split; [apply same_shape_refl|].
    intros a b m k. cells_eq.
Qed.

Lemma loop_y_spec (sample : Z) (p : datum) :
  forall (fuel : nat) (y : Z) (g : generator) (t : Tensor),
    0 <= y -> width t + block_size <= 2 ^ 32 -> height t + block_size <= 2 ^ 32 ->
    (nblocks (height t - y) < fuel)%nat ->
    exists t',
      loop_y fuel y sample p g t
      = Some (skip (nblocks (height t - y) * nblocks (width t)) g, t')
      /\ same_shape t t'
      /\ forall a b m k,
           cell t' a b m k
           = if (0 <=? a) && (a <? width t) && (y <=? b) && (b <? height t)
                && (m =? 0) && (k =? sample)
                && datum_gt (draw (Z.to_nat ((b - y) / block_size) * nblocks (width t)
                                   + Z.to_nat (a / block_size)) g) p
             then 0%Q else cell t a b m k.
Proof.
  induction fuel as [|fuel IH]; intros y g t Hy Hw Hh Hf; [lia|].
  rewrite loop_y_S.
  destruct (y <? height t) eqn:E.
  - to_prop.
    assert (Hy' : y + block_size < 2 ^ 32) by (unfold block_size in *; lia).
    destruct (loop_x_spec y sample p Hy Hy' (S (Z.to_nat (width t))) 0 g t)
      as (t1 & Hl & (Hs1 & Hw1 & Hh1 & Hm1) & Hc1);
      [lia | lia | pose proof (nblocks_le (width t - 0)); lia |].
    replace (width t - 0) with (width t) in Hl by lia.
    rewrite Hl. clear Hl.
    rewrite (wrap32_small (y + block_size)) by (unfold block_size in *; lia).
    rewrite (nblocks_step (height t - y)) in Hf |- * by lia.
    replace (height t - y - block_size) with (height t - (y + block_size)) in * by lia.
    destruct (IH (y + block_size) (skip (nblocks (width t)) g) t1)
      as (t' & Hl' & Hs & Hc);
      [unfold block_size; lia | lia | lia | rewrite Hh1; lia |].
    rewrite Hh1, Hw1 in Hl'. rewrite Hl'.
    exists t'. split.
    { f_equal. f_equal. simpl. by rewrite skip_add. }
    split; [by eapply same_shape_trans|].
    intros a b m k. rewrite Hc, Hc1, Hw1, Hh1.
    replace (a - 0) with a by lia.
    destruct (Z.lt_ge_cases b (y + block_size)) as [Hb|Hb].
    + destruct (Z.le_gt_cases y b) as [Hb'|Hb'].
      * replace ((b - y) / block_size) with 0
          by (unfold block_size in *; Z.to_euclidean_division_equations; lia).
        simpl (Z.to_nat 0 * _ + _)%nat.
        destruct (datum_gt (draw (Z.to_nat (a / block_size)) g) p);
          unfold block_size in *; cells_eq.
      * unfold block_size in *. cells_eq.
    + replace (Z.to_nat ((b - y) / block_size))
        with (S (Z.to_nat ((b - (y + block_size)) / block_size))).
      2:{ unfold block_size in *.
          rewrite <- Z2Nat.inj_succ; [f_equal|]; Z.to_euclidean_division_equations; lia. }
      replace (S (Z.to_nat ((b - (y + block_size)) / block_size)) * nblocks (width t)
               + Z.to_nat (a / block_size))%nat
        with (nblocks (width t)
              + (Z.to_nat ((b - (y + block_size)) / block_size) * nblocks (width t)
                 + Z.to_nat (a / block_size)))%nat by lia.
      rewrite (draw_add (nblocks (width t))).
      destruct (datum_gt (draw _ (skip (nblocks (width t)) g)) p);
        unfold block_size in *; cells_eq.
  - to_prop. rewrite nblocks_nonpos by lia. simpl.
    exists t. split; [done|]. split; [apply same_shape_refl|].
    intros a b m k. cells_eq.
Qed.

(** [loss_sampling] returns, takes one draw per block and computes the map the
    spec describes. *)
Lemma loss_sampling_spec (sample : Z) s (e : CombinedTensor) :
  localized_error_output_ s = Some e ->
  width (data e) + block_size <= 2 ^ 32 ->
  height (data e) + block_size <= 2 ^ 32 ->
  exists t',
    loss_sampling sample s
    = Done (set_generator_
              (skip (nblocks (height (data e)) * nblocks (width (data e))) (generator_ s))
              (set_localized_error_output_ (Some (with_data e t')) s))
    /\ same_shape (data e) t'
    /\ forall a b m k,
         cell t' a b m k
         = sampled_cells (loss_sampling_p_ s) (generator_ s) sample (data e) a b m k.
Proof.
  intros He Hw Hh. unfold loss_sampling. rewrite He.
  destruct (loop_y_spec sample (loss_sampling_p_ s) (S (Z.to_nat (height (data e)))) 0
              (generator_ s) (data e)) as (t' & Hl & Hs & Hc);
    [lia | done | done | pose proof (nblocks_le (height (data e) - 0)); lia |].
  replace (height (data e) - 0) with (height (data e)) in Hl by lia.
  rewrite Hl. exists t'. split; [done|]. split; [done|].
  intros a b m k. rewrite Hc. unfold sampled_cells, in_image, block_index.
  replace (b - 0) with b by lia.
  destruct (datum_gt _ _); cells_eq.
Qed.

(** ** What the steps of a batch slot leave alone *)

Lemma same_config_refl s : same_config s s.
Proof. by repeat split. Qed.

Lemma same_config_trans s1 s2 s3 : same_config s1 s2 -> same_config s2 s3 -> same_config s1 s3.
Proof.
  unfold same_config. intros (?&?&?&?&?&?) (?&?&?&?&?&?). repeat split; congruence.
Qed.

Lemma RedoPermutation_fields s :
  same_config s (RedoPermutation s)
  /\ perm_ (RedoPermutation s) = (shuffle (perm_ s) (generator_ s)).1
  /\ generator_ (RedoPermutation s) = (shuffle (perm_ s) (generator_ s)).2
  /\ log_ (RedoPermutation s) = log_ s ++ [EvShuffle]
  /\ current_element_ (RedoPermutation s) = current_element_ s
  /\ current_element_testing_ (RedoPermutation s) = current_element_testing_ s
  /\ ready (RedoPermutation s) = ready s.
Proof.
  unfold RedoPermutation, same_config. by destruct (shuffle _ _) as [perm g].
Qed.

Lemma select_element_fields s (e : Z) (fnw : bool) s1 :
  select_element s = Done (e, fnw, s1) ->
  same_config s s1 /\ perm_ s1 ≡ₚ perm_ s /\ ready s1 = ready s
  /\ (testing_ s = false -> fnw = false).
Proof.
  unfold select_element, vector_at.
  destruct (testing_ s) eqn:Ht; simpl.
  - destruct (_ <=? _); intros [= <- <- <-]; by repeat split.
  - destruct (perm_ s !! _) as [e'|]; simpl; [|discriminate].
    destruct (_ <=? _); intros [= <- <- <-]; [|by repeat split].
    destruct (RedoPermutation_fields
                (set_current_element_ 0
                   (set_current_element_ (wrap32 (current_element_ s + 1)) s)))
      as (Hc & Hp & _ & _ & _ & _ & Hr).
    split; [|split; [|split]]; [exact Hc| |exact Hr|done].
    rewrite Hp. apply shuffle_Permutation.
Qed.

Lemma fetch_sample_fields (sample e : Z) (fnw b : bool) s s' :
  fetch_sample sample e fnw s = Done (b, s') ->
  same_config s s' /\ same_cursors s s' /\ generator_ s' = generator_ s
  /\ ready s' = ready s
  /\ log_ s' = log_ s ++ [EvFetch (testing_ s) sample e fnw].
Proof.
  unfold fetch_sample.
  destruct (data_output_ s) as [d|] eqn:Hd; [|discriminate].
  destruct (label_output_ s) as [l|] eqn:Hl; [|discriminate].
  destruct (localized_error_output_ s) as [le|] eqn:Hle; [|discriminate].
  destruct (_ (dataset_ s) _ _ _ _ _) as [b' [[cd cl] ce]].
  intros [= <- <-]. unfold ready. simpl. rewrite Hd, Hl, Hle. by repeat split.
Qed.

Lemma loss_sampling_fields (sample : Z) s s' :
  loss_sampling sample s = Done s' ->
  same_config s s' /\ same_cursors s s' /\ log_ s' = log_ s.
Proof.
  unfold loss_sampling.
  destruct (localized_error_output_ s) as [e|]; [|discriminate].
  destruct (loop_y _ _ _ _ _ _) as [[g t]|]; [|discriminate].
  intros [= <-]. by repeat split.
Qed.

Lemma clear_weight_fields (sample : Z) s s' :
  clear_weight sample s = Done s' ->
  same_config s s' /\ same_cursors s s' /\ log_ s' = log_ s
  /\ generator_ s' = generator_ s /\ ready s' = ready s.
Proof.
  unfold clear_weight.
  destruct (localized_error_output_ s) as [e|] eqn:He; [|discriminate].
  intros [= <-]. unfold ready. simpl. rewrite He. by repeat split.
Qed.

(** The state a batch slot leaves, returned or halted, in terms of the state
    after its index selection. *)
Lemma FeedForward_sample_fields (sample : Z) s s' :
  final_state (FeedForward_sample sample s) = Some s' ->
  exists (e : Z) (fnw : bool) s1,
    select_element s = Done (e, fnw, s1)
    /\ same_config s1 s' /\ same_cursors s1 s'
    /\ log_ s' = log_ s1 ++ [EvFetch (testing_ s) sample e fnw].
Proof.
  destruct (FeedForward_sample sample s) as [s''|s''| |] eqn:Hff; simpl;
    try discriminate; intros [= ->].
  - apply FeedForward_sample_Done in Hff
      as (e & fnw & s1 & s2 & s3 & Hsel & Hf & Hl & Hc).
    exists e, fnw, s1. split; [done|].
    destruct (select_element_fields _ _ _ _ Hsel) as ((_&_&_&_&_&Ht1) & _).
    destruct (fetch_sample_fields _ _ _ _ _ _ Hf) as (Hc2 & (?&?&?) & _ & _ & Hlog2).
    assert (same_config s2 s3 /\ same_cursors s2 s3 /\ log_ s3 = log_ s2)
      as (Hc3 & (?&?&?) & Hlog3).
    { destruct (negb (testing_ s2) && negb fnw).
      - by apply loss_sampling_fields in Hl.
      - injection Hl as <-. by repeat split. }
    assert (same_config s3 s' /\ same_cursors s3 s' /\ log_ s' = log_ s3)
      as (Hc4 & (?&?&?) & Hlog4).
    { destruct fnw.
      - apply clear_weight_fields in Hc. by destruct Hc as (?&?&?&_).
      - injection Hc as <-. by repeat split. }
    split; [eauto using same_config_trans|].
    split; [repeat split; congruence|].
    rewrite Hlog4, Hlog3, Hlog2. by rewrite Ht1.
  - apply FeedForward_sample_Fatal in Hff as (e & fnw & s1 & Hsel & Hf).
    exists e, fnw, s1. split; [done|].
    destruct (select_element_fields _ _ _ _ Hsel) as ((_&_&_&_&_&Ht1) & _).
    destruct (fetch_sample_fields _ _ _ _ _ _ Hf) as (Hc2 & Hcur & _ & _ & Hlog2).
    split; [done|]. split; [done|]. by rewrite Hlog2, Ht1.
Qed.

(** ** The cursors *)

(** C3 (amended). A batch slot in training mode advances [current_element_] and
    resets it to 0, reshuffling [perm_], when the advanced cursor reaches the
    permutation length. A batch slot in testing mode advances
    [current_element_testing_] by one (modulo 2^32) whatever its value:
    [FeedForward] never resets the testing cursor, which goes on past
    [elements_testing_]; only [SetTestingMode] sets it back to 0. *)
Theorem cursors_after_sample (sample : Z) s s' :
  final_state (FeedForward_sample sample s) = Some s' ->
  if testing_ s then
    current_element_testing_ s' = wrap32 (current_element_testing_ s + 1)
    /\ current_element_ s' = current_element_ s
    /\ perm_ s' = perm_ s
  else
    current_element_testing_ s' = current_element_testing_ s
    /\ if Z.of_nat (length (perm_ s)) <=? wrap32 (current_element_ s + 1)
       then current_element_ s' = 0
            /\ perm_ s' = (shuffle (perm_ s) (generator_ s)).1
       else current_element_ s' = wrap32 (current_element_ s + 1)
            /\ perm_ s' = perm_ s.
Proof.
  intros Hff.
  apply FeedForward_sample_fields in Hff
    as (e & fnw & s1 & Hsel & _ & (Hc & Hct & Hp) & _).
  destruct (testing_ s) eqn:Ht.
  - rewrite select_element_testing in Hsel by done.
    simplify_eq. by rewrite Hc, Hct, Hp.
  - pose proof (select_element_training_inv _ _ _ _ Ht Hsel) as He.
    rewrite (select_element_training _ _ Ht He) in Hsel.
    rewrite Hc, Hct, Hp.
    destruct (_ <=? _); simplify_eq; [|done].
    destruct (RedoPermutation_fields
                (set_current_element_ 0
                   (set_current_element_ (wrap32 (current_element_ s + 1)) s)))
      as (_ & Hp' & _ & _ & Hc' & Hct' & _).
    by rewrite Hp', Hc', Hct'.
Qed.

(** ** The permutation *)

Lemma push_ascending_spec (n : Z) :
  n < 2 ^ 32 ->
  forall (fuel : nat) (i : Z) (perm : list Z),
    0 <= i -> fuel = Z.to_nat (n - i) ->
    push_ascending fuel i n perm = perm ++ seqZ i (n - i).
Proof.
  intros Hn. induction fuel as [|fuel IH]; intros i perm Hi Hf; simpl.
  - rewrite seqZ_nil by lia. by rewrite app_nil_r.
  - destruct (i <? n) eqn:E; to_prop; [|lia].
    rewrite wrap32_small by lia. rewrite IH by lia.
    rewrite (seqZ_cons i) by lia. rewrite <- app_assoc. simpl.
    do 3 f_equal; lia.
Qed.

Lemma Sorted_seqZ (n : Z) : forall m, Sorted Z.le (seqZ m n).
Proof.
  induction (Z.to_nat n) as [|k IH] eqn:Hk in n |- *; intros m.
  - rewrite seqZ_nil by lia. constructor.
  - rewrite seqZ_cons by lia. constructor.
    + apply IH. lia.
    + destruct (Z.le_gt_cases (Z.pred n) 0).
      * rewrite seqZ_nil by lia. constructor.
      * rewrite seqZ_cons by lia. constructor. lia.
Qed.

Lemma sorted_permutation_of_range (l : list Z) (n : Z) :
  l ≡ₚ seqZ 0 n -> merge_sort Z.le l = seqZ 0 n.
Proof.
  intros Hp. apply (Sorted_unique Z.le).
  - apply Sorted_merge_sort. apply _.
  - apply Sorted_seqZ.
  - by rewrite merge_sort_Permutation.
Qed.

Lemma perm_invariant_step (dataset : Dataset) s s' :
  elements_training_ s' = elements_training_ s ->
  perm_ s' ≡ₚ perm_ s ->
  perm_invariant dataset s -> perm_invariant dataset s'.
Proof. unfold perm_invariant. intros -> ->. done. Qed.

Lemma Connect_fields (inputs outputs : list (option CombinedTensor)) (r : bool) s s' :
  Connect inputs outputs s = Done (r, s') ->
  same_config s s' /\ same_cursors s s' /\ log_ s' = log_ s
  /\ generator_ s' = generator_ s.
Proof.
  destruct outputs as [|d [|l [|h [|e rest]]]]; try discriminate.
  rewrite Connect_cons4.
  destruct (_ && _); intros [= <- <-]; by repeat split.
Qed.

Lemma FeedForward_loop_invariant (P : DatasetInputLayer -> Prop) :
  (forall sample s s', P s -> final_state (FeedForward_sample sample s) = Some s' -> P s') ->
  forall (fuel : nat) (sample : Z) s s',
    P s -> final_state (FeedForward_loop fuel sample s) = Some s' -> P s'.
Proof.
  intros Hstep. induction fuel as [|fuel IH]; intros sample s s' HP; simpl; [discriminate|].
  destruct (sample <? batch_size_ s); [|by intros [= <-]].
  destruct (FeedForward_sample sample s) as [s1|s1| |] eqn:Hff; simpl; try discriminate.
  - apply IH. apply (Hstep sample s); [done|]. by rewrite Hff.
  - intros [= <-]. apply (Hstep sample s); [done|]. by rewrite Hff.
Qed.

Lemma FeedForward_sample_perm (sample : Z) s s' :
  final_state (FeedForward_sample sample s) = Some s' ->
  same_config s s' /\ perm_ s' ≡ₚ perm_ s.
Proof.
  intros Hff.
  apply FeedForward_sample_fields in Hff
    as (e & fnw & s1 & Hsel & Hc & (_ & _ & Hp) & _).
  apply select_element_fields in Hsel as (Hc1 & Hp1 & _).
  split; [by eapply same_config_trans|]. by rewrite Hp.
Qed.

(** C4. In every reachable state of a layer, after the constructor and after
    any number of operations, batch slots and reshuffles in either mode,
    [perm_] is a bijection on [0, training_count): its length is the number of
    training samples and sorting it gives 0, 1, ..., training_count - 1. *)
Theorem perm_is_bijection (dataset : Dataset) (batch_size : Z) (loss_sampling_p : datum)
    (seed : Z) s :
  reachable dataset batch_size loss_sampling_p seed s ->
  let training_count := wrap32 (GetTrainingSamples dataset) in
  elements_training_ s = training_count
  /\ length (perm_ s) = Z.to_nat training_count
  /\ merge_sort Z.le (perm_ s) = seqZ 0 training_count
  /\ perm_ s ≡ₚ seqZ 0 training_count.
Proof.
  intros Hr. simpl.
  assert (Hinv : perm_invariant dataset s).
  { induction Hr as [|s inputs outputs r s' _ IH Hc|s testing _ IH|s _ IH
                     |s sample s' _ IH Hff|s s' _ IH Hff].
    - unfold new_DatasetInputLayer.
      match goal with |- perm_invariant _ (RedoPermutation ?x) => set (s0 := x) end.
      destruct (RedoPermutation_fields s0) as ((_&_&_&He&_) & Hp & _).
      eapply perm_invariant_step;
        [exact He | rewrite Hp; apply shuffle_Permutation |].
      split; [done|]. simpl.
      pose proof (wrap32_range (GetTrainingSamples dataset)).
      rewrite (push_ascending_spec (wrap32 (GetTrainingSamples dataset)))
        by (lia || f_equal; lia).
      simpl. by rewrite Z.sub_0_r.
    - apply Connect_fields in Hc as ((_&_&_&He&_) & (_&_&Hp) & _).
      eapply perm_invariant_step; [exact He|by rewrite Hp|exact IH].
    - eapply perm_invariant_step; [|by rewrite SetTestingMode_perm|exact IH].
      unfold SetTestingMode. by destruct testing, (testing_ s).
    - destruct (RedoPermutation_fields s) as ((_&_&_&He&_) & Hp & _).
      eapply perm_invariant_step; [exact He| |exact IH].
      rewrite Hp. apply shuffle_Permutation.
    - apply FeedForward_sample_perm in Hff as ((_&_&_&He&_) & Hp).
      by eapply perm_invariant_step.
    - revert Hff. unfold FeedForward.
      apply FeedForward_loop_invariant; [|exact IH].
      intros sample s1 s2 H1 Hff.
      apply FeedForward_sample_perm in Hff as ((_&_&_&He&_) & Hp).
      by eapply perm_invariant_step. }
  destruct Hinv as (He & Hp). rewrite He in Hp.
  split; [done|]. split; [by rewrite Hp, length_seqZ|].
  split; [by apply sorted_permutation_of_range|done].
Qed.

(** ** Runs of batch slots *)

Lemma run_samples_app (l1 l2 : list Z) s :
  run_samples (l1 ++ l2) s = bind (run_samples l1 s) (run_samples l2).
Proof.
  revert s. induction l1 as [|sample l1 IH]; intros s; simpl; [done|].
  destruct (FeedForward_sample sample s); simpl; auto.
Qed.

Lemma FeedForward_sample_batch_size (sample : Z) s s' :
  FeedForward_sample sample s = Done s' -> batch_size_ s' = batch_size_ s.
Proof.
  intros Hff.
  assert (Hf : final_state (FeedForward_sample sample s) = Some s') by by rewrite Hff.
  by apply FeedForward_sample_perm in Hf as ((_&?&_) & _).
Qed.

(** The batch loop runs the slots 0, 1, ..., [batch_size_ - 1]. *)
Lemma FeedForward_loop_run_samples :
  forall (fuel : nat) (sample : Z) s,
    0 <= sample -> batch_size_ s < 2 ^ 64 ->
    (Z.to_nat (batch_size_ s - sample) < fuel)%nat ->
    FeedForward_loop fuel sample s = run_samples (seqZ sample (batch_size_ s - sample)) s.
Proof.
  induction fuel as [|fuel IH]; intros sample s Hs Hb Hf; [lia|]. simpl.
  destruct (sample <? batch_size_ s) eqn:E; to_prop.
  - rewrite seqZ_cons by lia. simpl.
    destruct (FeedForward_sample sample s) as [s'| | |] eqn:Hff; simpl; try done.
    apply FeedForward_sample_batch_size in Hff.
    rewrite wrap64_small by lia. rewrite IH by (rewrite ?Hff; lia).
    rewrite Hff. do 2 f_equal; lia.
  - by rewrite seqZ_nil by lia.
Qed.

Lemma FeedForward_run_samples s :
  batch_size_ s < 2 ^ 64 ->
  FeedForward s = run_samples (seqZ 0 (batch_size_ s)) s.
Proof.
  intros Hb. unfold FeedForward.
  rewrite FeedForward_loop_run_samples by lia. by rewrite Z.sub_0_r.
Qed.

(** ** A failing fetch *)

(** C8. When the Dataset fetch of a batch slot returns false, the slot body
    reaches [FATAL] right after that fetch: the run halts in the state the
    fetch left, whose last event is that one fetch (no second attempt, no
    skip to another element); the slots that follow in the call are not run,
    and no later call runs either. *)
Theorem fetch_failure_is_fatal (pre post : list Z) (sample e : Z) (fnw : bool) s s0 s1 s2 :
  run_samples pre s = Done s0 ->
  select_element s0 = Done (e, fnw, s1) ->
  fetch_sample sample e fnw s1 = Done (false, s2) ->
  FeedForward_sample sample s0 = Fatal s2
  /\ run_samples (pre ++ sample :: post) s = Fatal s2
  /\ log_ s2 = log_ s1 ++ [EvFetch (testing_ s0) sample e fnw]
  /\ (forall fuel, sample < batch_size_ s0 -> FeedForward_loop (S fuel) sample s0 = Fatal s2)
  /\ (forall k s', FeedForward s' = Fatal s2 -> FeedForward_calls (S k) s' = Fatal s2).
Proof.
  intros Hpre Hsel Hf.
  assert (Hff : FeedForward_sample sample s0 = Fatal s2).
  { apply FeedForward_sample_Fatal. by exists e, fnw, s1. }
  split; [done|]. split; [|split; [|split]].
  - rewrite run_samples_app, Hpre. simpl. by rewrite Hff.
  - apply fetch_sample_fields in Hf as (_ & _ & _ & _ & ->).
    by apply select_element_fields in Hsel as ((_&_&_&_&_&->) & _).
  - intros fuel Hlt. simpl.
    destruct (sample <? batch_size_ s0) eqn:E; to_prop; [|lia]. by rewrite Hff.
  - intros k s' Hs'. simpl. by rewrite Hs'.
Qed.

(** ** Batch slots that return *)

Lemma fetch_sample_ok (sample e : Z) (fnw : bool) s :
  ready s = true ->
  (if testing_ s then testing_fetch_ok (dataset_ s) else training_fetch_ok (dataset_ s)) ->
  exists s', fetch_sample sample e fnw s = Done (true, s').
Proof.
  unfold ready, fetch_sample. intros Hr Hok.
  destruct (data_output_ s) as [d|]; [|done].
  destruct (label_output_ s) as [l|]; [|done].
  destruct (localized_error_output_ s) as [le|]; [|done].
  destruct (testing_ s).
  - specialize (Hok (data d) (data l) (data le) sample e).
    destruct (GetTestingSample _ _ _ _ _ _) as [b [[cd cl] ce]].
    simpl in Hok. subst b. eauto.
  - specialize (Hok (data d) (data l) (data le) sample e).
    destruct (GetTrainingSample _ _ _ _ _ _) as [b [[cd cl] ce]].
    simpl in Hok. subst b. eauto.
Qed.

Lemma loss_sampling_ready (sample : Z) s :
  ready s = true ->
  exists s', loss_sampling sample s = Done s' /\ ready s' = true.
Proof.
  unfold ready. intros Hr.
  destruct (data_output_ s) as [d|] eqn:Hd; [|done].
  destruct (label_output_ s) as [l|] eqn:Hl; [|done].
  destruct (localized_error_output_ s) as [le|] eqn:Hle; [|done].
  to_prop. destruct Hr as [Hw Hh].
  destruct (loss_sampling_spec sample s le Hle Hw Hh) as (t' & -> & (_&Hw'&Hh'&_) & _).
  eexists. split; [done|]. simpl. rewrite Hd, Hl. simpl. rewrite Hw', Hh'.
  to_prop. done.
Qed.

(** A batch slot in training mode on a connected layer returns when the
    cursor is inside the permutation and the dataset serves its samples. *)
Lemma training_sample (sample e : Z) s :
  testing_ s = false -> ready s = true -> training_fetch_ok (dataset_ s) ->
  perm_ s !! Z.to_nat (current_element_ s) = Some e ->
  exists s',
    FeedForward_sample sample s = Done s'
    /\ same_config s s' /\ ready s' = true
    /\ let wrapped := Z.of_nat (length (perm_ s)) <=? wrap32 (current_element_ s + 1) in
       current_element_ s' = (if wrapped then 0 else wrap32 (current_element_ s + 1))
       /\ perm_ s' = (if wrapped then (shuffle (perm_ s) (generator_ s)).1 else perm_ s)
       /\ log_ s' = log_ s ++ (if wrapped then [EvShuffle] else [])
                          ++ [EvFetch false sample e false].
Proof.
  intros Ht Hr Hok He.
  pose proof (select_element_training s e Ht He) as Hsel. simpl in Hsel.
  set (s1 := if Z.of_nat (length (perm_ s)) <=? wrap32 (current_element_ s + 1)
             then _ else _) in Hsel.
  destruct (select_element_fields _ _ _ _ Hsel) as (Hc1 & _ & Hr1 & _).
  pose proof Hc1 as (Hds1&_&_&_&_&Ht1).
  destruct (fetch_sample_ok sample e false s1) as (s2 & Hf);
    [congruence | by rewrite Ht1, Ht, Hds1 |].
  destruct (fetch_sample_fields _ _ _ _ _ _ Hf) as (Hc2 & (Hcur2&_&Hp2) & _ & Hr2 & Hlog2).
  pose proof Hc2 as (_&_&_&_&_&Ht2).
  destruct (loss_sampling_ready sample s2) as (s3 & Hl & Hr3); [congruence|].
  destruct (loss_sampling_fields _ _ _ Hl) as (Hc3 & (Hcur3&_&Hp3) & Hlog3).
  exists s3. split.
  { apply FeedForward_sample_Done. exists e, false, s1, s2, s3.
    split; [done|]. split; [done|]. split; [|done].
    by rewrite Ht2, Ht1, Ht. }
  split; [eauto using same_config_trans|]. split; [done|]. simpl.
  rewrite Hcur3, Hcur2, Hp3, Hp2, Hlog3, Hlog2, Ht1, Ht. subst s1.
  destruct (Z.of_nat (length (perm_ s)) <=? wrap32 (current_element_ s + 1)).
  - destruct (RedoPermutation_fields
                (set_current_element_ 0
                   (set_current_element_ (wrap32 (current_element_ s + 1)) s)))
      as (_ & -> & _ & -> & -> & _). simpl. by rewrite <- app_assoc.
  - done.
Qed.

(** A batch slot in testing mode on a connected layer returns when the
    dataset serves its samples. *)
Lemma testing_sample (sample : Z) s :
  testing_ s = true -> ready s = true -> testing_fetch_ok (dataset_ s) ->
  exists s',
    FeedForward_sample sample s = Done s'
    /\ same_config s s' /\ ready s' = true
    /\ let c' := wrap32 (current_element_testing_ s + 1) in
       let padding := elements_testing_ s <=? c' in
       current_element_testing_ s' = c'
       /\ log_ s' = log_ s ++ [EvFetch true sample
                                (if padding then 0 else current_element_testing_ s) padding].
Proof.
  intros Ht Hr Hok.
  pose proof (select_element_testing s Ht) as Hsel. simpl in Hsel.
  set (e := if elements_testing_ s <=? _ then 0 else _) in *.
  set (padding := elements_testing_ s <=? _) in *.
  set (s1 := set_current_element_testing_ _ s) in *.
  destruct (fetch_sample_ok sample e padding s1) as (s2 & Hf);
    [exact Hr | change (testing_ s1) with (testing_ s); by rewrite Ht |].
  destruct (fetch_sample_fields _ _ _ _ _ _ Hf) as (Hc2 & (_&Hcur2&_) & _ & Hr2 & Hlog2).
  pose proof Hc2 as (_&_&_&_&_&Ht2).
  assert (exists s3, (if padding then clear_weight sample s2 else Done s2) = Done s3
                     /\ same_config s2 s3 /\ ready s3 = ready s2
                     /\ current_element_testing_ s3 = current_element_testing_ s2
                     /\ log_ s3 = log_ s2) as (s3 & Hcl & Hc3 & Hr3 & Hcur3 & Hlog3).
  { destruct padding.
    - assert (is_Some (localized_error_output_ s2)) as [le Hle].
      { assert (Hr2' : ready s2 = true) by (rewrite Hr2; exact Hr).
        unfold ready in Hr2'.
        destruct (data_output_ s2), (label_output_ s2), (localized_error_output_ s2);
          by eauto. }
      unfold clear_weight. rewrite Hle. eexists. split; [done|].
      unfold ready. simpl. rewrite Hle. by repeat split.
    - exists s2. by repeat split. }
  exists s3. split.
  { apply FeedForward_sample_Done. exists e, padding, s1, s2, s2.
    split; [done|]. split; [done|]. split; [|done].
    rewrite Ht2. simpl. by rewrite Ht. }
  split; [eapply same_config_trans; [|exact Hc3]; eapply same_config_trans; [|exact Hc2];
          by repeat split|].
  split; [rewrite Hr3, Hr2; exact Hr|].
  simpl. rewrite Hcur3, Hcur2, Hlog3, Hlog2. simpl. by rewrite Ht.
Qed.

(** ** Event logs *)

Lemma served_elements_app (l1 l2 : list Event) :
  served_elements (l1 ++ l2) = served_elements l1 ++ served_elements l2.
Proof.
  induction l1 as [|[t sl e []|] l1 IH]; simpl; [done| | |]; by rewrite ?IH.
Qed.

Lemma selected_elements_app (l1 l2 : list Event) :
  selected_elements (l1 ++ l2) = selected_elements l1 ++ selected_elements l2.
Proof.
  induction l1 as [|[t sl e fnw|] l1 IH]; simpl; [done| |]; by rewrite ?IH.
Qed.

Lemma shuffles_app (l1 l2 : list Event) :
  shuffles (l1 ++ l2) = (shuffles l1 + shuffles l2)%nat.
Proof. induction l1 as [|[t sl e fnw|] l1 IH]; simpl; [done| |]; by rewrite ?IH. Qed.

(** ** Testing mode *)

Lemma testing_traversal_from (slots : list Z) :
  forall s,
    testing_ s = true -> ready s = true -> testing_fetch_ok (dataset_ s) ->
    0 <= current_element_testing_ s ->
    current_element_testing_ s + Z.of_nat (length slots) < 2 ^ 32 ->
    exists s',
      run_samples slots s = Done s'
      /\ same_config s s' /\ ready s' = true
      /\ current_element_testing_ s' = current_element_testing_ s + Z.of_nat (length slots)
      /\ served_elements (log_ s')
         = served_elements (log_ s)
           ++ seqZ (current_element_testing_ s)
                (Z.min (current_element_testing_ s + Z.of_nat (length slots))
                       (elements_testing_ s - 1)
                 - current_element_testing_ s).
Proof.
  induction slots as [|sample slots IH]; intros s Ht Hr Hok Hc Hlen.
  - exists s. split; [done|]. split; [apply same_config_refl|]. split; [done|].
    split; [simpl; lia|].
    rewrite seqZ_nil by (simpl; lia). by rewrite app_nil_r.
  - destruct (testing_sample sample s Ht Hr Hok)
      as (s1 & Hff & Hcfg1 & Hr1 & Hc1 & Hlog1).
    pose proof Hcfg1 as (Hds&_&_&_&Het&Ht1).
    simpl in Hc1, Hlog1. simpl length in *.
    rewrite wrap32_small in Hc1, Hlog1 by lia.
    destruct (IH s1) as (s' & Hrun & Hcfg' & Hr' & Hc' & Hlog');
      [congruence | done | by rewrite Hds | lia | lia |].
    exists s'. simpl. rewrite Hff. simpl. split; [done|].
    split; [by eapply same_config_trans|]. split; [done|].
    split; [lia|].
    rewrite Hlog', Hlog1, served_elements_app, Hc1, Het, <- app_assoc. f_equal.
    destruct (elements_testing_ s <=? current_element_testing_ s + 1) eqn:E; to_prop; simpl.
    + rewrite !seqZ_nil by lia. done.
    + rewrite (seqZ_cons (current_element_testing_ s)) by lia. simpl.
      do 2 f_equal; lia.
Qed.

(** C1 (what the code does). In testing mode, from a fresh cursor, the batch
    slots serve the indices 0, 1, ..., testing_count - 2 in order, and every
    further slot is padding: the slot that would serve the last index
    testing_count - 1 is already forced to index 0 with no weight, so the last
    testing sample is never served, whatever the number of slots. *)
Theorem testing_traversal_drops_last (slots : list Z) s :
  testing_ s = true -> ready s = true -> testing_fetch_ok (dataset_ s) ->
  current_element_testing_ s = 0 ->
  Z.of_nat (length slots) < 2 ^ 32 ->
  exists s',
    run_samples slots s = Done s'
    /\ served_elements (log_ s')
       = served_elements (log_ s)
         ++ seqZ 0 (Z.min (Z.of_nat (length slots)) (elements_testing_ s - 1)).
Proof.
  intros Ht Hr Hok Hc Hlen.
  destruct (testing_traversal_from slots s Ht Hr Hok) as (s' & Hrun & _ & _ & _ & Hlog);
    [lia | lia |].
  exists s'. split; [done|]. rewrite Hlog, Hc. do 2 f_equal. lia.
Qed.

(** ** Training mode *)

Lemma training_pass_from (slots : list Z) :
  forall s,
    testing_ s = false -> ready s = true -> training_fetch_ok (dataset_ s) ->
    0 <= current_element_ s ->
    Z.of_nat (length (perm_ s)) < 2 ^ 32 ->
    (Z.to_nat (current_element_ s) + length slots = length (perm_ s))%nat ->
    slots <> [] ->
    exists s',
      run_samples slots s = Done s'
      /\ same_config s s' /\ ready s' = true
      /\ current_element_ s' = 0
      /\ (exists g, perm_ s' = (shuffle (perm_ s) g).1)
      /\ selected_elements (log_ s')
         = selected_elements (log_ s) ++ drop (Z.to_nat (current_element_ s)) (perm_ s)
      /\ shuffles (log_ s') = S (shuffles (log_ s)).
Proof.
  induction slots as [|sample slots IH]; intros s Ht Hr Hok Hc Hn Hlen Hne; [done|].
  simpl in Hlen.
  destruct (lookup_lt_is_Some_2 (perm_ s) (Z.to_nat (current_element_ s))) as [e He];
    [lia|].
  destruct (training_sample sample e s Ht Hr Hok He)
    as (s1 & Hff & Hc1 & Hr1 & Hcur1 & Hp1 & Hlog1).
  pose proof Hc1 as (Hds1&_&_&_&_&Ht1).
  rewrite (wrap32_small (current_element_ s + 1)) in Hcur1, Hp1, Hlog1 by lia.
  simpl. rewrite Hff. simpl.
  rewrite (drop_S _ _ _ He).
  destruct slots as [|sample' slots].
  - destruct (Z.of_nat (length (perm_ s)) <=? current_element_ s + 1) eqn:E;
      to_prop; [|simpl in Hlen; lia].
    exists s1. split; [done|]. split; [done|]. split; [done|]. split; [done|].
    split; [by eexists|].
    rewrite Hlog1, !selected_elements_app, !shuffles_app. simpl.
    rewrite drop_ge by (simpl in Hlen; lia).
    split; [done|]. lia.
  - destruct (Z.of_nat (length (perm_ s)) <=? current_element_ s + 1) eqn:E;
      to_prop; [simpl in Hlen; lia|].
    destruct (IH s1) as (s' & Hrun & Hc' & Hr' & Hcur' & (g & Hp') & Hsel' & Hsh');
      [congruence | done | by rewrite Hds1 | lia | by rewrite Hp1
      | rewrite Hcur1, Hp1; simpl in *; lia | done |].
    exists s'. split; [done|]. split; [by eapply same_config_trans|].
    split; [done|]. split; [done|].
    split; [exists g; by rewrite Hp', Hp1|].
    rewrite Hsel', Hsh', Hlog1, Hcur1, Hp1, !selected_elements_app, !shuffles_app. simpl.
    replace (Z.to_nat (current_element_ s + 1)) with (S (Z.to_nat (current_element_ s)))
      by lia.
    split; [by rewrite <- app_assoc|]. lia.
Qed.

(** C5. In training mode each batch slot selects [perm_[current_element_]] and
    advances the cursor; when the cursor reaches the permutation length it goes
    back to 0 and the whole permutation is reshuffled. Hence training_count
    consecutive slots from cursor 0 select [perm_[0]], [perm_[1]], ... in order,
    leave the cursor at 0 and reshuffle exactly once; the slot that follows
    selects element 0 of the new permutation. *)
Theorem training_pass (slots : list Z) s :
  testing_ s = false -> ready s = true -> training_fetch_ok (dataset_ s) ->
  current_element_ s = 0 ->
  perm_ s <> [] ->
  Z.of_nat (length (perm_ s)) < 2 ^ 32 ->
  length slots = length (perm_ s) ->
  exists s',
    run_samples slots s = Done s'
    /\ current_element_ s' = 0
    /\ shuffles (log_ s') = S (shuffles (log_ s))
    /\ selected_elements (log_ s') = selected_elements (log_ s) ++ perm_ s
    /\ (exists g, perm_ s' = (shuffle (perm_ s) g).1)
    /\ forall sample, exists s'',
         FeedForward_sample sample s' = Done s''
         /\ selected_elements (log_ s'') = selected_elements (log_ s') ++ take 1 (perm_ s').
Proof.
  intros Ht Hr Hok Hc Hne Hn Hlen.
  destruct (training_pass_from slots s Ht Hr Hok)
    as (s' & Hrun & Hc' & Hr' & Hcur' & (g & Hp') & Hsel' & Hsh');
    [lia | done | rewrite Hc; simpl; lia | by destruct slots, (perm_ s) |].
  pose proof Hc' as (Hds'&_&_&_&_&Ht').
  exists s'. split; [done|]. split; [done|]. split; [done|].
  split; [by rewrite Hsel', Hc|]. split; [by exists g|].
  intros sample.
  assert (Hperm : perm_ s' ≡ₚ perm_ s) by (rewrite Hp'; apply shuffle_Permutation).
  destruct (perm_ s') as [|e' rest] eqn:Hps'.
  { symmetry in Hperm. apply Permutation_nil_r in Hperm. done. }
  destruct (training_sample sample e' s') as (s'' & Hff & _ & _ & _ & _ & Hlog'');
    [congruence | done | by rewrite Hds' | by rewrite Hcur', Hps' |].
  exists s''. split; [done|].
  rewrite Hlog'', !selected_elements_app. simpl.
  by destruct (_ <=? _).
Qed.

(** ** Loss sampling *)

Lemma draw_le_one (i : nat) (g : generator) (p : datum) :
  (1 <= p)%Q -> datum_gt (draw i g) p = false.
Proof.
  intros Hp. unfold datum_gt, draw. apply negb_false_iff, Qle_bool_iff.
  destruct (uniform_real_range (skip i g)) as [_ Hlt].
  apply Qlt_le_weak. by eapply Qlt_le_trans.
Qed.

(** C7. Loss sampling runs only in training mode (where no slot is padding).
    There, after the fetch, the loss-weight map is cut into 12 x 12 blocks
    clipped at the image borders, one draw in [0, 1) of the layer's generator is
    taken per block, and the weights of a block are zeroed if and only if its
    draw exceeds p: the map is [sampled_cells]. With p at least 1 no weight
    changes. In testing mode the generator is not used and the map is the one
    the fetch left, cleared as a whole for a padding slot. *)
Theorem loss_sampling_blocks (sample e : Z) (fnw : bool) s s1 s2 (w : CombinedTensor) :
  select_element s = Done (e, fnw, s1) ->
  fetch_sample sample e fnw s1 = Done (true, s2) ->
  localized_error_output_ s2 = Some w ->
  width (data w) + block_size <= 2 ^ 32 ->
  height (data w) + block_size <= 2 ^ 32 ->
  exists s' w',
    FeedForward_sample sample s = Done s'
    /\ localized_error_output_ s' = Some w'
    /\ same_shape (data w) (data w')
    /\ if testing_ s then
         generator_ s' = generator_ s2
         /\ forall a b m k,
              cell (data w') a b m k
              = if fnw && (k =? sample) then 0%Q else cell (data w) a b m k
       else
         fnw = false
         /\ generator_ s'
            = skip (nblocks (height (data w)) * nblocks (width (data w))) (generator_ s2)
         /\ (forall a b m k,
               cell (data w') a b m k
               = sampled_cells (loss_sampling_p_ s) (generator_ s2) sample (data w) a b m k)
         /\ (forall i, (0 <= draw i (generator_ s2) < 1)%Q)
         /\ ((1 <= loss_sampling_p_ s)%Q ->
              forall a b m k, cell (data w') a b m k = cell (data w) a b m k).
Proof.
  intros Hsel Hf Hw Hwd Hht.
  destruct (select_element_fields _ _ _ _ Hsel) as ((_&_&Hp1&_&_&Ht1) & _ & _ & Hfnw).
  destruct (fetch_sample_fields _ _ _ _ _ _ Hf) as ((_&_&Hp2&_&_&Ht2) & _).
  destruct (testing_ s) eqn:Ht.
  - destruct fnw.
    + eexists _, _. split; [|split; [|split; [|split]]].
      * apply FeedForward_sample_Done. exists e, true, s1, s2, s2.
        split; [done|]. split; [done|]. rewrite Ht2, Ht1. simpl.
        split; [done|]. unfold clear_weight. by rewrite Hw.
      * simpl. reflexivity.
      * by repeat split.
      * done.
      * intros a b m k. simpl. reflexivity.
    + exists s2, w. split; [|split; [|split; [|split]]].
      * apply FeedForward_sample_Done. exists e, false, s1, s2, s2.
        split; [done|]. split; [done|]. rewrite Ht2, Ht1. simpl. done.
      * done.
      * apply same_shape_refl.
      * done.
      * done.
  - rewrite (Hfnw eq_refl) in *.
    destruct (loss_sampling_spec sample s2 w Hw Hwd Hht) as (t' & Hl & Hs & Hc).
    eexists _, _. split; [|split; [|split; [|split; [|split; [|split; [|split]]]]]].
    + apply FeedForward_sample_Done. exists e, false, s1, s2. eexists.
      split; [done|]. split; [done|]. rewrite Ht2, Ht1. simpl.
      split; [exact Hl|done].
    + simpl. reflexivity.
    + exact Hs.
    + done.
    + done.
    + intros a b m k. simpl. rewrite Hc. by rewrite Hp2, Hp1.
    + intros i. apply uniform_real_range.
    + intros Hp a b m k. simpl. rewrite Hc. unfold sampled_cells.
      rewrite draw_le_one by (by rewrite Hp2, Hp1).
      by rewrite andb_false_r.
Qed.

(** ** Two layers with the same constructor arguments *)




(** ** Calls that return *)

Lemma boot_Done (dataset : Dataset) (batch_size : Z) (loss_sampling_p : datum) (seed : Z) :
  forall s0,
    boot dataset batch_size loss_sampling_p seed
    = Done (state_of s0 (boot dataset batch_size loss_sampling_p seed)).
Proof. intros s0. reflexivity. Qed.

Lemma fetch_sample_result (sample e : Z) (fnw b : bool) s :
  ready s = true ->
  (forall d l w,
     ((if testing_ s then GetTestingSample else GetTrainingSample)
        (dataset_ s) d l w sample e).1 = b) ->
  exists s', fetch_sample sample e fnw s = Done (b, s').
Proof.
  unfold ready, fetch_sample. intros Hr Hb.
  destruct (data_output_ s) as [d|]; [|done].
  destruct (label_output_ s) as [l|]; [|done].
  destruct (localized_error_output_ s) as [le|]; [|done].
  specialize (Hb (data d) (data l) (data le)).
  destruct (_ (dataset_ s) _ _ _ _ _) as [b' [[cd cl] ce]].
  simpl in Hb. subst b'. eauto.
Qed.

Lemma ready_weight s :
  ready s = true ->
  exists w, localized_error_output_ s = Some w
            /\ width (data w) + block_size <= 2 ^ 32
            /\ height (data w) + block_size <= 2 ^ 32.
Proof.
  unfold ready. intros Hr.
  destruct (data_output_ s); [|done]. destruct (label_output_ s); [|done].
  destruct (localized_error_output_ s) as [w|]; [|done].
  to_prop. by exists w.
Qed.

Lemma training_sample_ok (sample : Z) s :
  training_ok s -> exists s', FeedForward_sample sample s = Done s' /\ training_ok s'.
Proof.
  intros (Ht & Hr & Hok & Hc & Hn & Hb).
  destruct (lookup_lt_is_Some_2 (perm_ s) (Z.to_nat (current_element_ s))) as [e He];
    [lia|].
  destruct (training_sample sample e s Ht Hr Hok He)
    as (s' & Hff & Hc' & Hr' & Hcur' & Hp' & _).
  pose proof Hc' as (Hds'&Hbs'&_&_&_&Ht').
  exists s'. split; [done|].
  rewrite (wrap32_small (current_element_ s + 1)) in Hcur', Hp' by lia.
  split; [congruence|]. split; [done|]. split; [by rewrite Hds'|].
  rewrite Hcur', Hp', Hbs'.
  destruct (Z.of_nat (length (perm_ s)) <=? current_element_ s + 1) eqn:E; to_prop.
  - rewrite (Permutation_length (shuffle_Permutation (perm_ s) (generator_ s))). lia.
  - lia.
Qed.

Lemma run_samples_ok (slots : list Z) :
  forall s, training_ok s -> exists s', run_samples slots s = Done s' /\ training_ok s'.
Proof.
  induction slots as [|sample slots IH]; intros s Hs; simpl; [by exists s|].
  destruct (training_sample_ok sample s Hs) as (s1 & -> & Hs1). simpl. by apply IH.
Qed.

(** In training mode [FeedForward] returns. *)
Lemma FeedForward_ok s :
  training_ok s -> exists s', FeedForward s = Done s' /\ training_ok s'.
Proof.
  intros Hs. rewrite FeedForward_run_samples by apply Hs. by apply run_samples_ok.
Qed.


End Properties.

(** * Further properties of the layer *)

Section Extras.
Context `{StdRandom}.

Implicit Types s : DatasetInputLayer.

(** ** Creating and connecting the outputs *)

(** X1. Whatever the layer, [CreateOutputs] on no inputs and an empty output
    vector followed by [Connect] on the vector it filled succeeds: [Connect]
    returns true, the three outputs [FeedForward] writes are bound, the
    loss-weight map has the extent of the dataset, and the training sampler
    state is untouched. *)
Theorem CreateOutputs_then_Connect s :
  exists outputs s',
    CreateOutputs [] [] s = (true, outputs)
    /\ length outputs = 4%nat
    /\ Connect [] outputs s = Done (true, s')
    /\ unconnected s' = false
    /\ weight_extent s'
       = Some (wrap32 (GetWidth (dataset_ s)), wrap32 (GetHeight (dataset_ s)))
    /\ sampler_of s' = sampler_of s.
Proof.
  eexists _, _. split; [reflexivity|]. split; [reflexivity|].
  split; [apply Connect_cons4|]. by repeat split.
Qed.

(** X2. [CreateOutputs] appends to the vector it is given: when that vector
    already holds an output, the vector it returns has more than four
    elements and [Connect] on it returns false and leaves the layer as it
    was, whatever the inputs. *)
Theorem Connect_after_CreateOutputs_on_used_vector
    (inputs outputs : list (option CombinedTensor)) s :
  outputs <> [] ->
  (CreateOutputs [] outputs s).1 = true
  /\ (4 < length (CreateOutputs [] outputs s).2)%nat
  /\ Connect inputs (CreateOutputs [] outputs s).2 s = Done (false, s).
Proof.
  intros Hne. unfold CreateOutputs. simpl.
  split; [done|]. split.
  { rewrite length_app. simpl. destruct outputs; [done|simpl; lia]. }
  destruct outputs as [|o1 [|o2 [|o3 [|o4 rest]]]]; [done| | | |]; simpl;
    rewrite Connect_cons4; simpl;
    repeat match goal with
           | |- context [is_nullptr ?o] => destruct o; simpl
           end;
    rewrite ?andb_false_r; try reflexivity.
  all: destruct inputs; simpl; try reflexivity.
  all: rewrite length_app; simpl; rewrite Nat.add_comm; reflexivity.
Qed.

(** ** The accessors *)

Lemma new_layer_perm (dataset : Dataset) (batch_size : Z) (loss_sampling_p : datum)
    (seed : Z) :
  perm_ (new_DatasetInputLayer dataset batch_size loss_sampling_p seed)
  ≡ₚ seqZ 0 (wrap32 (GetTrainingSamples dataset)).
Proof.
  unfold new_DatasetInputLayer.
  match goal with |- perm_ (RedoPermutation ?x) ≡ₚ _ => set (s0 := x) end.
  destruct (RedoPermutation_fields s0) as (_ & -> & _).
  rewrite shuffle_Permutation. simpl.
  pose proof (wrap32_range (GetTrainingSamples dataset)).
  rewrite (push_ascending_spec (wrap32 (GetTrainingSamples dataset)))
    by (lia || f_equal; lia).
  simpl. by rewrite Z.sub_0_r.
Qed.

Lemma new_layer_config (dataset : Dataset) (batch_size : Z) (loss_sampling_p : datum)
    (seed : Z) :
  let s := new_DatasetInputLayer dataset batch_size loss_sampling_p seed in
  dataset_ s = dataset /\ batch_size_ s = wrap32 batch_size
  /\ loss_sampling_p_ s = loss_sampling_p
  /\ elements_training_ s = wrap32 (GetTrainingSamples dataset)
  /\ elements_testing_ s = wrap32 (GetTestingSamples dataset)
  /\ testing_ s = false
  /\ current_element_ s = 0 /\ current_element_testing_ s = 0
  /\ unconnected s = true.
Proof.
  simpl. unfold new_DatasetInputLayer.
  match goal with |- context [RedoPermutation ?x] => set (s0 := x) end.
  destruct (RedoPermutation_fields s0) as ((->&->&->&->&->&->) & _ & _ & _ & -> & -> & _).
  unfold unconnected, RedoPermutation. destruct (shuffle _ _). by repeat split.
Qed.

(** The constructor arguments stay with the layer. *)
Lemma reachable_config (dataset : Dataset) (batch_size : Z) (loss_sampling_p : datum)
    (seed : Z) s :
  reachable dataset batch_size loss_sampling_p seed s ->
  dataset_ s = dataset /\ batch_size_ s = wrap32 batch_size
  /\ loss_sampling_p_ s = loss_sampling_p
  /\ elements_training_ s = wrap32 (GetTrainingSamples dataset)
  /\ elements_testing_ s = wrap32 (GetTestingSamples dataset)
  /\ perm_ s ≡ₚ seqZ 0 (wrap32 (GetTrainingSamples dataset)).
Proof.
  set (P := fun s : DatasetInputLayer =>
              dataset_ s = dataset /\ batch_size_ s = wrap32 batch_size
              /\ loss_sampling_p_ s = loss_sampling_p
              /\ elements_training_ s = wrap32 (GetTrainingSamples dataset)
              /\ elements_testing_ s = wrap32 (GetTestingSamples dataset)
              /\ perm_ s ≡ₚ seqZ 0 (wrap32 (GetTrainingSamples dataset))).
  assert (Hstep : forall s1 s2,
             (dataset_ s2 = dataset_ s1 /\ batch_size_ s2 = batch_size_ s1
              /\ loss_sampling_p_ s2 = loss_sampling_p_ s1
              /\ elements_training_ s2 = elements_training_ s1
              /\ elements_testing_ s2 = elements_testing_ s1) ->
             perm_ s2 ≡ₚ perm_ s1 -> P s1 -> P s2).
  { intros s1 s2 (E1&E2&E3&E4&E5) Ep HP. unfold P in *.
    rewrite E1, E2, E3, E4, E5, Ep. exact HP. }
  assert (Hcfg : forall s1 s2, same_config s1 s2 ->
             dataset_ s2 = dataset_ s1 /\ batch_size_ s2 = batch_size_ s1
             /\ loss_sampling_p_ s2 = loss_sampling_p_ s1
             /\ elements_training_ s2 = elements_training_ s1
             /\ elements_testing_ s2 = elements_testing_ s1).
  { intros s1 s2 (?&?&?&?&?&_). done. }
  change (reachable dataset batch_size loss_sampling_p seed s -> P s).
  induction 1 as [|s inputs outputs r s' _ IH Hc|s testing _ IH|s _ IH
                  |s sample s' _ IH Hff|s s' _ IH Hff].
  - pose proof (new_layer_config dataset batch_size loss_sampling_p seed)
      as (?&?&?&?&?&_).
    pose proof (new_layer_perm dataset batch_size loss_sampling_p seed).
    by repeat split.
  - apply Connect_fields in Hc as (Hc & (_&_&Hp) & _).
    apply (Hstep s); [by apply Hcfg|by rewrite Hp|done].
  - apply (Hstep s); [|by rewrite SetTestingMode_perm|done].
    unfold SetTestingMode. by destruct testing, (testing_ s).
  - destruct (RedoPermutation_fields s) as (Hc & Hp & _).
    apply (Hstep s); [by apply Hcfg| |done]. rewrite Hp. apply shuffle_Permutation.
  - apply FeedForward_sample_perm in Hff as (Hc & Hp). apply (Hstep s); auto.
  - revert Hff. unfold FeedForward.
    apply FeedForward_loop_invariant; [|exact IH].
    intros sample s1 s2 H1 Hff.
    apply FeedForward_sample_perm in Hff as (Hc & Hp). apply (Hstep s1); auto.
Qed.

(** X3. In every reachable state the accessors report the constructor's
    arguments: [GetBatchSize] is the batch size given to the constructor, and
    [GetSamplesInTrainingSet] and [GetSamplesInTestingSet] are the counts the
    layer cached; the training count is the length of [perm_], so one pass
    over the permutation is one pass over the training set. *)
Theorem accessors_agree_with_state (dataset : Dataset) (batch_size : Z)
    (loss_sampling_p : datum) (seed : Z) s :
  reachable dataset batch_size loss_sampling_p seed s ->
  GetBatchSize s = wrap32 batch_size
  /\ GetSamplesInTrainingSet s = elements_training_ s
  /\ GetSamplesInTrainingSet s = Z.of_nat (length (perm_ s))
  /\ GetSamplesInTestingSet s = elements_testing_ s.
Proof.
  intros Hr.
  destruct (reachable_config _ _ _ _ _ Hr) as (Hd & Hb & _ & Htr & Hte & Hp).
  unfold GetBatchSize, GetSamplesInTrainingSet, GetSamplesInTestingSet.
  rewrite Hd, Hb, Htr, Hte, Hp, length_seqZ.
  pose proof (wrap32_range (GetTrainingSamples dataset)).
  repeat split; try done. lia.
Qed.

(** ** Switching the mode *)

(** X4. [SetTestingMode] is idempotent, it never touches the training sampler
    state (permutation, training cursor, generator) or the testing cursor when
    called with false, and a switch to training mode and back to testing mode
    always puts the testing cursor at 0. *)
Theorem SetTestingMode_composes (b : bool) s :
  SetTestingMode b (SetTestingMode b s) = SetTestingMode b s
  /\ sampler_of (SetTestingMode b s) = sampler_of s
  /\ current_element_testing_ (SetTestingMode false s) = current_element_testing_ s
  /\ current_element_testing_ (SetTestingMode true (SetTestingMode false s)) = 0
  /\ testing_ (SetTestingMode true (SetTestingMode false s)) = true.
Proof.
  unfold SetTestingMode, sampler_of.
  destruct s as [? ? ? ? ? ? ? ? ? ? ? ? ? t ? ? ? ? ?]. by destruct b, t.
Qed.

(** ** Calls that cannot run *)

Lemma select_element_outputs s (e : Z) (fnw : bool) s1 :
  select_element s = Done (e, fnw, s1) ->
  data_output_ s1 = data_output_ s /\ label_output_ s1 = label_output_ s
  /\ helper_output_ s1 = helper_output_ s
  /\ localized_error_output_ s1 = localized_error_output_ s.
Proof.
  unfold select_element, vector_at.
  destruct (testing_ s); simpl.
  - destruct (_ <=? _); intros [= <- <- <-]; by repeat split.
  - destruct (perm_ s !! _) as [e'|]; simpl; [|discriminate].
    destruct (_ <=? _); intros [= <- <- <-]; [|by repeat split].
    unfold RedoPermutation. by destruct (shuffle _ _).
Qed.

Lemma select_element_not_Timeout s : select_element s <> Timeout.
Proof.
  unfold select_element, vector_at.
  destruct (testing_ s); simpl.
  - destruct (_ <=? _); discriminate.
  - destruct (perm_ s !! _); simpl; [|discriminate].
    destruct (_ <=? _); discriminate.
Qed.

Lemma FeedForward_first_slot (o : outcome DatasetInputLayer) s :
  0 < batch_size_ s ->
  FeedForward_sample 0 s = o ->
  (forall s', o <> Done s') ->
  FeedForward s = o.
Proof.
  intros Hb <- Hnd. unfold FeedForward. simpl.
  destruct (0 <? batch_size_ s) eqn:E; to_prop; [|lia].
  destruct (FeedForward_sample 0 s) as [s'| | |]; simpl; try done.
  by elim (Hnd s').
Qed.

(** X5. A layer with a null data, label or localized-error output (a new
    layer, or one whose [Connect] returned false) cannot run a batch slot: the
    slot dereferences the null output, and with a positive batch size so does
    [FeedForward]. *)
Theorem FeedForward_needs_Connect (sample : Z) s :
  unconnected s = true ->
  FeedForward_sample sample s = Undefined
  /\ (0 < batch_size_ s -> FeedForward s = Undefined).
Proof.
  intros Hu.
  assert (Hall : forall sample, FeedForward_sample sample s = Undefined).
  { clear sample. intros sample. unfold FeedForward_sample.
    destruct (select_element s) as [[[e fnw] s1]|s1| |] eqn:Hsel; simpl; try done.
    - apply select_element_outputs in Hsel as (Hd & Hl & _ & He).
      unfold fetch_sample. rewrite Hd, Hl, He. unfold unconnected in Hu.
      by destruct (data_output_ s), (label_output_ s), (localized_error_output_ s).
    - by apply select_element_not_Fatal in Hsel.
    - by apply select_element_not_Timeout in Hsel. }
  split; [apply Hall|]. intros Hb.
  apply FeedForward_first_slot; [done|apply Hall|discriminate].
Qed.

(** X6. A layer built on a dataset without training samples has an empty
    permutation, and its first [FeedForward] call in training mode reads
    [perm_[0]] out of range (for a positive batch size); the constructor and
    [Connect] accept such a dataset without complaint. *)
Theorem FeedForward_on_empty_training_set (dataset : Dataset) (batch_size : Z)
    (loss_sampling_p : datum) (seed : Z) s :
  wrap32 (GetTrainingSamples dataset) = 0 ->
  0 < wrap32 batch_size ->
  boot dataset batch_size loss_sampling_p seed = Done s ->
  perm_ s = [] /\ testing_ s = false /\ FeedForward s = Undefined.
Proof.
  intros Hn Hb Hboot.
  rewrite (boot_Done _ _ _ _ s) in Hboot. injection Hboot as Hs.
  pose proof (new_layer_perm dataset batch_size loss_sampling_p seed) as Hp.
  rewrite Hn, seqZ_nil in Hp by lia. apply Permutation_nil_r in Hp.
  pose proof (new_layer_config dataset batch_size loss_sampling_p seed)
    as (_ & Hbs & _ & _ & _ & Ht & _).
  assert (Hps : perm_ s = []) by (rewrite <- Hs; exact Hp).
  assert (Hts : testing_ s = false) by (rewrite <- Hs; exact Ht).
  assert (Hbss : batch_size_ s = wrap32 batch_size) by (rewrite <- Hs; exact Hbs).
  split; [done|]. split; [done|].
  apply FeedForward_first_slot; [lia| |discriminate].
  unfold FeedForward_sample, select_element, vector_at. by rewrite Hts, Hps.
Qed.

(** ** Calls in training mode *)

Lemma boot_fields (dataset : Dataset) (batch_size : Z) (loss_sampling_p : datum)
    (seed : Z) s :
  boot dataset batch_size loss_sampling_p seed = Done s ->
  let s0 := new_DatasetInputLayer dataset batch_size loss_sampling_p seed in
  same_config s0 s /\ same_cursors s0 s
  /\ ready s = (wrap32 (GetWidth dataset) + block_size <=? 2 ^ 32)
               && (wrap32 (GetHeight dataset) + block_size <=? 2 ^ 32).
Proof.
  intros Hboot.
  pose proof (new_layer_config dataset batch_size loss_sampling_p seed)
    as (Hd & _).
  unfold boot, CreateOutputs in Hboot. simpl in Hboot. injection Hboot as <-.
  simpl. split; [by repeat split|]. split; [by repeat split|].
  unfold ready. simpl. by rewrite Hd.
Qed.

Lemma boot_training_ok (dataset : Dataset) (batch_size : Z) (loss_sampling_p : datum)
    (seed : Z) s :
  training_fetch_ok dataset ->
  0 < wrap32 (GetTrainingSamples dataset) ->
  wrap32 (GetWidth dataset) + block_size <= 2 ^ 32 ->
  wrap32 (GetHeight dataset) + block_size <= 2 ^ 32 ->
  boot dataset batch_size loss_sampling_p seed = Done s ->
  training_ok s.
Proof.
  intros Hok Hn Hw Hh Hboot.
  destruct (boot_fields _ _ _ _ _ Hboot)
    as ((Hds&Hbss&_&_&_&Hts) & (Hcs&_&Hps) & Hr).
  pose proof (new_layer_perm dataset batch_size loss_sampling_p seed) as Hp.
  pose proof (new_layer_config dataset batch_size loss_sampling_p seed)
    as (Hd & Hbs & _ & _ & _ & Ht & Hc & _).
  pose proof (wrap32_range (GetTrainingSamples dataset)).
  pose proof (wrap32_range batch_size).
  apply Permutation_length in Hp. rewrite length_seqZ in Hp.
  unfold training_ok. rewrite Hts, Hds, Hcs, Hps, Hbss, Hr, Hd, Hbs, Hc, Hp.
  split; [exact Ht|]. split; [to_prop; done|]. split; [exact Hok|]. lia.
Qed.

Lemma FeedForward_calls_ok (k : nat) :
  forall s, training_ok s -> exists s', FeedForward_calls k s = Done s' /\ training_ok s'.
Proof.
  induction k as [|k IH]; intros s Hs; simpl; [by exists s|].
  destruct (FeedForward_ok s Hs) as (s1 & -> & Hs1). simpl. by apply IH.
Qed.

(** X7. A layer that went through the constructor, [CreateOutputs] and
    [Connect], on a dataset with at least one training sample that serves its
    samples and whose extent leaves room for one block below 2^32, runs any
    number of [FeedForward] calls in training mode to the end: no access to
    [perm_] is out of range, no loop hangs, and the training cursor stays
    inside the permutation. *)
Theorem training_calls_return (dataset : Dataset) (batch_size : Z)
    (loss_sampling_p : datum) (seed : Z) (k : nat) s :
  training_fetch_ok dataset ->
  0 < wrap32 (GetTrainingSamples dataset) ->
  wrap32 (GetWidth dataset) + block_size <= 2 ^ 32 ->
  wrap32 (GetHeight dataset) + block_size <= 2 ^ 32 ->
  boot dataset batch_size loss_sampling_p seed = Done s ->
  exists s',
    FeedForward_calls k s = Done s'
    /\ testing_ s' = false
    /\ 0 <= current_element_ s' < Z.of_nat (length (perm_ s')).
Proof.
  intros Hok Hn Hw Hh Hboot.
  pose proof (boot_training_ok _ _ _ _ _ Hok Hn Hw Hh Hboot) as Hs.
  destruct (FeedForward_calls_ok k s Hs) as (s' & Hc & (Ht & _ & _ & Hcur & _)).
  by exists s'.
Qed.

Lemma fetch_slots_app (l1 l2 : list Event) :
  fetch_slots (l1 ++ l2) = fetch_slots l1 ++ fetch_slots l2.
Proof. induction l1 as [|[t sl e fnw|] l1 IH]; simpl; [done| |]; by rewrite ?IH. Qed.

Lemma select_element_fetch_slots s (e : Z) (fnw : bool) s1 :
  select_element s = Done (e, fnw, s1) ->
  fetch_slots (log_ s1) = fetch_slots (log_ s).
Proof.
  unfold select_element, vector_at.
  destruct (testing_ s); simpl.
  - destruct (_ <=? _); by intros [= <- <- <-].
  - destruct (perm_ s !! _) as [e'|]; simpl; [|discriminate].
    destruct (_ <=? _); intros [= <- <- <-]; [|done].
    unfold RedoPermutation. destruct (shuffle _ _). simpl.
    by rewrite fetch_slots_app, app_nil_r.
Qed.

Lemma run_samples_fetch_slots (slots : list Z) :
  forall s s',
    run_samples slots s = Done s' ->
    testing_ s' = testing_ s
    /\ fetch_slots (log_ s') = fetch_slots (log_ s) ++ ((testing_ s,.) <$> slots).
Proof.
  induction slots as [|sample slots IH]; intros s s'; simpl.
  - intros [= <-]. by rewrite app_nil_r.
  - destruct (FeedForward_sample sample s) as [s1| | |] eqn:Hff; simpl; try discriminate.
    intros Hrun. apply IH in Hrun as (Ht & Hlog).
    assert (Hf : final_state (FeedForward_sample sample s) = Some s1) by by rewrite Hff.
    pose proof (FeedForward_sample_perm _ _ _ Hf) as ((_&_&_&_&_&Ht1) & _).
    apply FeedForward_sample_fields in Hf as (e & fnw & s0 & Hsel & _ & _ & Hlog1).
    apply select_element_fetch_slots in Hsel.
    split; [congruence|].
    rewrite Hlog, Hlog1, fetch_slots_app, Hsel, Ht1, <- app_assoc. done.
Qed.

(** X8. A [FeedForward] call that returns has fetched exactly once for every
    batch slot 0, 1, ..., batch_size - 1, in this order, and every fetch went
    to the fetch operation of the mode the layer was in. *)
Theorem FeedForward_fills_every_slot s s' :
  batch_size_ s < 2 ^ 64 ->
  FeedForward s = Done s' ->
  fetch_slots (log_ s')
  = fetch_slots (log_ s) ++ ((testing_ s,.) <$> seqZ 0 (batch_size_ s)).
Proof.
  intros Hb Hff. rewrite FeedForward_run_samples in Hff by done.
  by apply run_samples_fetch_slots in Hff as (_ & ->).
Qed.

(** ** The training stream *)

Lemma fetch_sample_weight_extent (sample e : Z) (fnw b : bool) s s' :
  fetch_sample sample e fnw s = Done (b, s') ->
  weight_extent s' = weight_extent s.
Proof.
  unfold fetch_sample, weight_extent.
  destruct (data_output_ s) as [d|]; [|discriminate].
  destruct (label_output_ s) as [l|]; [|discriminate].
  destruct (localized_error_output_ s) as [le|]; [|discriminate].
  destruct (_ (dataset_ s) _ _ _ _ _) as [b' [[cd cl] ce]].
  by intros [= <- <-].
Qed.

(** One batch slot in training mode, as a step of the sampler state: the
    element under the cursor is selected, the cursor advances or wraps with a
    reshuffle, and the generator moves on by one draw per block. *)
Lemma training_sample_sampler (sample w h : Z) s :
  training_ok s -> weight_extent s = Some (w, h) ->
  exists s' e,
    FeedForward_sample sample s = Done s'
    /\ training_ok s' /\ weight_extent s' = Some (w, h)
    /\ perm_ s !! Z.to_nat (current_element_ s) = Some e
    /\ selected_elements (log_ s') = selected_elements (log_ s) ++ [e]
    /\ sampler_of s'
       = if Z.of_nat (length (perm_ s)) <=? current_element_ s + 1
         then ((shuffle (perm_ s) (generator_ s)).1, 0,
               skip (nblocks h * nblocks w) (shuffle (perm_ s) (generator_ s)).2)
         else (perm_ s, current_element_ s + 1,
               skip (nblocks h * nblocks w) (generator_ s)).
Proof.
  intros Hok Hwe. pose proof Hok as (Ht & Hr & Hfok & Hc & Hn & Hb).
  destruct (lookup_lt_is_Some_2 (perm_ s) (Z.to_nat (current_element_ s))) as [e He];
    [lia|].
  destruct (training_sample_ok sample s Hok) as (s' & Hff & Hok').
  exists s', e. split; [done|]. split; [done|].
  apply FeedForward_sample_Done in Hff as (e' & fnw & s1 & s2 & s3 & Hsel & Hf & Hl & Hcl).
  rewrite (select_element_training s e Ht He) in Hsel.
  rewrite (wrap32_small (current_element_ s + 1)) in Hsel by lia.
  injection Hsel as <- <- Hs1.
  assert (Hs3 : s3 = s') by (by injection Hcl). subst s3.
  destruct (fetch_sample_fields _ _ _ _ _ _ Hf)
    as ((_&_&_&_&_&Ht2) & (Hc2&_&Hp2) & Hg2 & Hr2 & Hlog2).
  pose proof (fetch_sample_weight_extent _ _ _ _ _ _ Hf) as Hwe2.
  assert (Ht1 : testing_ s1 = false).
  { rewrite <- Hs1. destruct (_ <=? _); [|done].
    by destruct (RedoPermutation_fields
                   (set_current_element_ 0 (set_current_element_ (current_element_ s + 1) s)))
      as ((_&_&_&_&_&->) & _). }
  rewrite Ht2, Ht1 in Hl. simpl in Hl.
  assert (Hwe1 : weight_extent s1 = Some (w, h)).
  { rewrite <- Hs1, <- Hwe. unfold weight_extent. destruct (_ <=? _); [|done].
    unfold RedoPermutation. by destruct (shuffle _ _). }
  rewrite Hwe1 in Hwe2. unfold weight_extent in Hwe2.
  destruct (localized_error_output_ s2) as [le|] eqn:Hle; [|done].
  injection Hwe2 as Hw Hh.
  assert (Hr1 : ready s1 = true).
  { rewrite <- Hs1. destruct (_ <=? _); [|done].
    by destruct (RedoPermutation_fields
                   (set_current_element_ 0 (set_current_element_ (current_element_ s + 1) s)))
      as (_ & _ & _ & _ & _ & _ & ->). }
  assert (Hfit : width (data le) + block_size <= 2 ^ 32
                 /\ height (data le) + block_size <= 2 ^ 32).
  { rewrite <- Hr2 in Hr1. unfold ready in Hr1. rewrite Hle in Hr1.
    destruct (data_output_ s2), (label_output_ s2); try done. to_prop. done. }
  destruct (loss_sampling_spec sample s2 le Hle (proj1 Hfit) (proj2 Hfit))
    as (t' & Hl' & (_ & Hw' & Hh' & _) & _).
  rewrite Hl' in Hl. injection Hl as <-.
  split. { unfold weight_extent. simpl. by rewrite Hw', Hh', Hw, Hh. }
  split; [done|]. unfold sampler_of. simpl.
  rewrite Hlog2, Hp2, Hc2, Hg2, Hw, Hh, selected_elements_app, <- Hs1. simpl.
  destruct (Z.of_nat (length (perm_ s)) <=? current_element_ s + 1).
  - destruct (RedoPermutation_fields
                (set_current_element_ 0 (set_current_element_ (current_element_ s + 1) s)))
      as (_ & -> & -> & -> & -> & _ & _). simpl.
    split; [|done]. by rewrite selected_elements_app, app_nil_r.
  - simpl. done.
Qed.

Lemma training_stream_from (slots1 : list Z) :
  forall (slots2 : list Z) s t,
    training_ok s -> training_ok t ->
    sampler_of s = sampler_of t ->
    weight_extent s = weight_extent t ->
    length slots1 = length slots2 ->
    exists s' t' l,
      run_samples slots1 s = Done s'
      /\ run_samples slots2 t = Done t'
      /\ selected_elements (log_ s') = selected_elements (log_ s) ++ l
      /\ selected_elements (log_ t') = selected_elements (log_ t) ++ l
      /\ sampler_of s' = sampler_of t'.
Proof.
  induction slots1 as [|a slots1 IH]; intros [|b slots2] s t Hs Ht Hsam Hwe Hlen;
    try discriminate.
  - exists s, t, []. by rewrite !app_nil_r.
  - destruct (ready_weight s) as (le & Hle & _); [apply Hs|].
    assert (Hwes : weight_extent s = Some (width (data le), height (data le)))
      by (unfold weight_extent; by rewrite Hle).
    assert (Hwet : weight_extent t = Some (width (data le), height (data le)))
      by congruence.
    destruct (training_sample_sampler a _ _ s Hs Hwes)
      as (s1 & e & Hffs & Hs1 & Hwes1 & Hes & Hlogs & Hsams).
    destruct (training_sample_sampler b _ _ t Ht Hwet)
      as (t1 & e' & Hfft & Ht1 & Hwet1 & Het & Hlogt & Hsamt).
    unfold sampler_of in Hsam. injection Hsam as Hp Hc Hg.
    assert (e' = e) as -> by congruence.
    assert (Hsam1 : sampler_of s1 = sampler_of t1)
      by (rewrite Hsams, Hsamt, Hp, Hc, Hg; done).
    destruct (IH slots2 s1 t1 Hs1 Ht1 Hsam1) as (s' & t' & l & Hrs & Hrt & Hls & Hlt & Hsam');
      [congruence | by injection Hlen |].
    exists s', t', (e :: l). simpl. rewrite Hffs, Hfft. simpl.
    split; [done|]. split; [done|].
    rewrite Hls, Hlt, Hlogs, Hlogt, <- !app_assoc. done.
Qed.

(** X9. The stream of selected training elements depends only on the sampler
    state (permutation, cursor, generator) and the extent of the loss-weight
    map: two connected layers in training mode that agree on these select the
    same elements over the same number of batch slots and agree again
    afterwards, even if they differ in the loss sampling probability, the
    dataset, the batch size, the slot numbers or the tensor contents. *)
Theorem training_stream_depends_on_sampler_only (slots1 slots2 : list Z) s t :
  training_ok s -> training_ok t ->
  sampler_of s = sampler_of t ->
  weight_extent s = weight_extent t ->
  length slots1 = length slots2 ->
  exists s' t' l,
    run_samples slots1 s = Done s'
    /\ run_samples slots2 t = Done t'
    /\ selected_elements (log_ s') = selected_elements (log_ s) ++ l
    /\ selected_elements (log_ t') = selected_elements (log_ t) ++ l
    /\ sampler_of s' = sampler_of t'.
Proof. apply training_stream_from. Qed.

(** ** Calls in testing mode *)

Lemma testing_sample_sampler (sample : Z) s s' :
  testing_ s = true ->
  final_state (FeedForward_sample sample s) = Some s' ->
  testing_ s' = true /\ sampler_of s' = sampler_of s.
Proof.
  intros Ht Hf.
  pose proof (FeedForward_sample_perm _ _ _ Hf) as ((_&_&_&_&_&Ht') & _).
  split; [congruence|].
  assert (Hsel : select_element s
                 = Done (if elements_testing_ s <=? wrap32 (current_element_testing_ s + 1)
                         then 0 else current_element_testing_ s,
                         elements_testing_ s <=? wrap32 (current_element_testing_ s + 1),
                         set_current_element_testing_
                           (wrap32 (current_element_testing_ s + 1)) s))
    by exact (select_element_testing s Ht).
  destruct (FeedForward_sample sample s) as [s''|s''| |] eqn:Hff; simpl in Hf;
    try discriminate; injection Hf as ->.
  - apply FeedForward_sample_Done in Hff as (e & fnw & s1 & s2 & s3 & Hsel' & Hfe & Hl & Hc).
    rewrite Hsel in Hsel'. injection Hsel' as _ _ <-.
    destruct (fetch_sample_fields _ _ _ _ _ _ Hfe)
      as ((_&_&_&_&_&Ht2) & (Hc2&_&Hp2) & Hg2 & _).
    simpl in Ht2. rewrite Ht2, Ht in Hl. simpl in Hl. injection Hl as <-.
    assert (sampler_of s' = sampler_of s2) as ->.
    { destruct fnw.
      - apply clear_weight_fields in Hc as (_ & (?&_&?) & _ & ? & _).
        unfold sampler_of. congruence.
      - by injection Hc as <-. }
    unfold sampler_of. by rewrite Hp2, Hc2, Hg2.
  - apply FeedForward_sample_Fatal in Hff as (e & fnw & s1 & Hsel' & Hfe).
    rewrite Hsel in Hsel'. injection Hsel' as _ _ <-.
    destruct (fetch_sample_fields _ _ _ _ _ _ Hfe) as (_ & (Hc2&_&Hp2) & Hg2 & _).
    unfold sampler_of. by rewrite Hp2, Hc2, Hg2.
Qed.

Lemma FeedForward_calls_invariant (P : DatasetInputLayer -> Prop) :
  (forall s s', P s -> final_state (FeedForward s) = Some s' -> P s') ->
  forall (k : nat) s s',
    P s -> final_state (FeedForward_calls k s) = Some s' -> P s'.
Proof.
  intros Hstep. induction k as [|k IH]; intros s s' HP; simpl; [by intros [= <-]|].
  destruct (FeedForward s) as [s1|s1| |] eqn:Hff; simpl; try discriminate.
  - apply IH. apply (Hstep s); [done|]. by rewrite Hff.
  - intros [= <-]. apply (Hstep s); [done|]. by rewrite Hff.
Qed.

(** X10. Calls in testing mode do not disturb training: after any number of
    [FeedForward] calls in testing mode, finished or halted by a failing
    fetch, the permutation, the training cursor and the generator are what
    they were before the switch, so the training stream resumes where it
    stopped. *)
Theorem testing_calls_keep_sampler (k : nat) s s' :
  final_state (FeedForward_calls k (SetTestingMode true s)) = Some s' ->
  testing_ s' = true
  /\ sampler_of s' = sampler_of s
  /\ sampler_of (SetTestingMode false s') = sampler_of s.
Proof.
  intros Hf.
  assert (HP : testing_ s' = true /\ sampler_of s' = sampler_of s).
  { revert Hf.
    apply (FeedForward_calls_invariant
             (fun s1 => testing_ s1 = true /\ sampler_of s1 = sampler_of s)).
    - intros s1 s2 HP1. unfold FeedForward.
      apply (FeedForward_loop_invariant
               (fun s1 => testing_ s1 = true /\ sampler_of s1 = sampler_of s));
        [|exact HP1].
      intros sample s3 s4 (Ht3 & Hs3) Hff.
      apply testing_sample_sampler in Hff as (Ht4 & Hs4); [|done].
      split; [done|congruence].
    - split; [apply SetTestingMode_testing|].
      unfold SetTestingMode, sampler_of. by destruct (testing_ s). }
  destruct HP as (Ht & Hs). split; [done|]. split; [done|].
  rewrite <- Hs. unfold SetTestingMode, sampler_of. by rewrite Ht.
Qed.

(** X11. A padding slot: in testing mode, once the advanced cursor has
    reached the number of testing samples, the slot fetches testing sample 0
    and then clears its whole loss-weight map, every channel and pixel of the
    batch slot, to zero; the generator is not used. *)
Theorem padding_slot_has_no_weight (sample : Z) s :
  testing_ s = true -> ready s = true -> testing_fetch_ok (dataset_ s) ->
  elements_testing_ s <= wrap32 (current_element_testing_ s + 1) ->
  exists s' w',
    FeedForward_sample sample s = Done s'
    /\ log_ s' = log_ s ++ [EvFetch true sample 0 true]
    /\ localized_error_output_ s' = Some w'
    /\ (forall a b m, cell (data w') a b m sample = 0%Q)
    /\ generator_ s' = generator_ s.
Proof.
  intros Ht Hr Hok Hpad.
  pose proof (select_element_testing s Ht) as Hsel. simpl in Hsel.
  destruct (elements_testing_ s <=? wrap32 (current_element_testing_ s + 1)) eqn:E;
    to_prop; [|lia].
  set (s1 := set_current_element_testing_ _ s) in Hsel.
  destruct (fetch_sample_ok sample 0 true s1) as (s2 & Hf);
    [exact Hr | change (testing_ s1) with (testing_ s); by rewrite Ht |].
  destruct (fetch_sample_fields _ _ _ _ _ _ Hf) as ((_&_&_&_&_&Ht2) & _ & Hg2 & Hr2 & Hlog2).
  destruct (ready_weight s2) as (w & Hw & _); [rewrite Hr2; exact Hr|].
  eexists _, _. split; [|split; [|split; [|split]]].
  - apply FeedForward_sample_Done. exists 0, true, s1, s2, s2.
    split; [done|]. split; [done|]. split; [by rewrite andb_false_r|].
    unfold clear_weight. by rewrite Hw.
  - simpl. rewrite Hlog2. simpl. by rewrite Ht.
  - simpl. reflexivity.
  - intros a b m. simpl. by rewrite Z.eqb_refl.
  - simpl. by rewrite Hg2.
Qed.

(** ** What a batch slot writes *)

Lemma only_zeroed_refl (sample : Z) (t : Tensor) : only_zeroed sample t t.
Proof. split; [apply same_shape_refl|]. intros; by left. Qed.

Lemma only_zeroed_trans (sample : Z) (t1 t2 t3 : Tensor) :
  only_zeroed sample t1 t2 -> only_zeroed sample t2 t3 -> only_zeroed sample t1 t3.
Proof.
  intros (Hs1 & Hc1) (Hs2 & Hc2). split; [by eapply same_shape_trans|].
  intros a b m k. destruct (Hc2 a b m k) as [->|?]; [apply Hc1|by right].
Qed.

Lemma only_zeroed_store (x y map sample : Z) (t : Tensor) :
  only_zeroed sample t (data_ptr_store x y map sample 0%Q t).
Proof.
  split; [by repeat split|]. intros a b m k. simpl.
  destruct (_ && _) eqn:E; [right|by left]. to_prop. by destruct E as [_ ->].
Qed.

Lemma only_zeroed_Clear (sample : Z) (t : Tensor) :
  only_zeroed sample t (Clear 0%Q sample t).
Proof.
  split; [by repeat split|]. intros a b m k. simpl.
  destruct (k =? sample) eqn:E; [right|by left]. to_prop. done.
Qed.

Lemma loop_ix_only_zeroed (x iy sample : Z) :
  forall (fuel : nat) (ix : Z) (t t' : Tensor),
    loop_ix fuel ix x iy sample t = Some t' -> only_zeroed sample t t'.
Proof.
  induction fuel as [|fuel IH]; intros ix t t'; [discriminate|].
  rewrite loop_ix_S. destruct (_ && _).
  - intros Hl. apply IH in Hl.
    eapply only_zeroed_trans; [apply only_zeroed_store|exact Hl].
  - intros [= <-]. apply only_zeroed_refl.
Qed.

Lemma loop_iy_only_zeroed (x y sample : Z) :
  forall (fuel : nat) (iy : Z) (t t' : Tensor),
    loop_iy fuel iy x y sample t = Some t' -> only_zeroed sample t t'.
Proof.
  induction fuel as [|fuel IH]; intros iy t t'; [discriminate|].
  rewrite loop_iy_S. destruct (_ && _).
  - destruct (loop_ix _ _ _ _ _ _) as [t1|] eqn:Hix; [|discriminate].
    apply loop_ix_only_zeroed in Hix. intros Hl. apply IH in Hl.
    by eapply only_zeroed_trans.
  - intros [= <-]. apply only_zeroed_refl.
Qed.

Lemma loop_x_only_zeroed (y sample : Z) (p : datum) :
  forall (fuel : nat) (x : Z) (g g' : generator) (t t' : Tensor),
    loop_x fuel x y sample p g t = Some (g', t') -> only_zeroed sample t t'.
Proof.
  induction fuel as [|fuel IH]; intros x g g' t t'; [discriminate|].
  rewrite loop_x_S. destruct (x <? width t).
  - destruct (datum_gt _ _).
    + destruct (loop_iy _ _ _ _ _ _) as [t1|] eqn:Hiy; [|discriminate].
      apply loop_iy_only_zeroed in Hiy. intros Hl. apply IH in Hl.
      by eapply only_zeroed_trans.
    + apply IH.
  - intros [= <- <-]. apply only_zeroed_refl.
Qed.

Lemma loop_y_only_zeroed (sample : Z) (p : datum) :
  forall (fuel : nat) (y : Z) (g g' : generator) (t t' : Tensor),
    loop_y fuel y sample p g t = Some (g', t') -> only_zeroed sample t t'.
Proof.
  induction fuel as [|fuel IH]; intros y g g' t t'; [discriminate|].
  rewrite loop_y_S. destruct (y <? height t).
  - destruct (loop_x _ _ _ _ _ _ _) as [[g1 t1]|] eqn:Hx; [|discriminate].
    apply loop_x_only_zeroed in Hx. intros Hl. apply IH in Hl.
    by eapply only_zeroed_trans.
  - intros [= <- <-]. apply only_zeroed_refl.
Qed.


(** ** Epochs *)

Lemma concat_replicate_Permutation (k : nat) (p q : list Z) :
  p ≡ₚ q -> concat (replicate k p) ≡ₚ concat (replicate k q).
Proof. intros Hp. induction k as [|k IH]; simpl; [done|]. by rewrite IH, Hp. Qed.

Lemma training_epochs_from (k : nat) :
  forall (slots : list Z) s,
    training_ok s -> current_element_ s = 0 ->
    length slots = (k * length (perm_ s))%nat ->
    exists s' l,
      run_samples slots s = Done s'
      /\ training_ok s'
      /\ current_element_ s' = 0
      /\ shuffles (log_ s') = (shuffles (log_ s) + k)%nat
      /\ selected_elements (log_ s') = selected_elements (log_ s) ++ l
      /\ l ≡ₚ concat (replicate k (perm_ s))
      /\ perm_ s' ≡ₚ perm_ s.
Proof.
  induction k as [|k IH]; intros slots s Hok Hc Hlen.
  - destruct slots; [|done]. exists s, []. simpl.
    rewrite app_nil_r. split; [done|]. split; [done|]. split; [done|].
    split; [lia|]. by repeat split.
  - pose proof Hok as (Ht & Hr & Hfok & Hcur & Hn & Hb).
    set (n := length (perm_ s)) in *.
    assert (Hn0 : (0 < n)%nat) by lia.
    rewrite <- (take_drop n slots). rewrite run_samples_app.
    destruct (training_pass_from (take n slots) s Ht Hr Hfok)
      as (s1 & Hrun1 & Hc1 & Hr1 & Hcur1 & (g & Hp1) & Hsel1 & Hsh1);
      [lia | done | rewrite length_take, Hc; simpl in *; lia
      | intros Hnil; apply (f_equal length) in Hnil;
        rewrite length_take in Hnil; simpl in *; lia |].
    rewrite Hrun1. simpl.
    assert (Hperm1 : perm_ s1 ≡ₚ perm_ s) by (rewrite Hp1; apply shuffle_Permutation).
    pose proof (Permutation_length Hperm1) as Hlen1.
    pose proof Hc1 as (Hds1 & Hbs1 & _ & _ & _ & Ht1).
    assert (Hok1 : training_ok s1).
    { split; [congruence|]. split; [done|]. split; [by rewrite Hds1|].
      rewrite Hcur1, Hlen1, Hbs1. fold n. lia. }
    destruct (IH (drop n slots) s1 Hok1 Hcur1)
      as (s' & l & Hrun & Hok' & Hcur' & Hsh' & Hsel' & Hl & Hperm');
      [rewrite length_drop, Hlen1; fold n; simpl in Hlen; lia|].
    exists s', (perm_ s ++ l). split; [done|]. split; [done|]. split; [done|].
    split; [lia|].
    split; [by rewrite Hsel', Hsel1, Hc, app_assoc|].
    split; [|by rewrite Hperm'].
    simpl. rewrite Hl. f_equiv. by apply concat_replicate_Permutation.
Qed.

(** X13. Epochs: from cursor 0, [k] times training_count consecutive batch
    slots in training mode return, serve every training element exactly [k]
    times, reshuffle exactly [k] times, and end with the cursor at 0 on a
    permutation of the same elements, whatever the batch size, so that
    batches may straddle the epochs. *)
Theorem training_epochs (k : nat) (slots : list Z) s :
  training_ok s -> current_element_ s = 0 ->
  length slots = (k * length (perm_ s))%nat ->
  exists s' l,
    run_samples slots s = Done s'
    /\ current_element_ s' = 0
    /\ shuffles (log_ s') = (shuffles (log_ s) + k)%nat
    /\ selected_elements (log_ s') = selected_elements (log_ s) ++ l
    /\ l ≡ₚ concat (replicate k (perm_ s))
    /\ perm_ s' ≡ₚ perm_ s.
Proof.
  intros Hok Hc Hlen.
  destruct (training_epochs_from k slots s Hok Hc Hlen)
    as (s' & l & ? & _ & ? & ? & ? & ? & ?).
  by exists s', l.
Qed.

(** ** A loss sampling probability below zero *)

Lemma draw_above_negative (i : nat) (g : generator) (p : datum) :
  (p < 0)%Q -> datum_gt (draw i g) p = true.
Proof.
  intros Hp. unfold datum_gt, draw. apply negb_true_iff.
  destruct (Qle_bool _ p) eqn:E; [|done].
  apply Qle_bool_iff in E.
  destruct (uniform_real_range (skip i g)) as [H0 _].
  exfalso. apply (Qlt_irrefl p). eapply Qlt_le_trans; [exact Hp|].
  by eapply Qle_trans.
Qed.

(** X14. With a loss sampling probability below zero every draw exceeds it:
    a batch slot in training mode then zeroes the weight of every pixel of
    the image in channel 0 of its batch slot, whatever the dataset wrote. *)
Theorem negative_probability_zeroes_the_map (sample : Z) s :
  training_ok s -> (loss_sampling_p_ s < 0)%Q ->
  exists s' w',
    FeedForward_sample sample s = Done s'
    /\ localized_error_output_ s' = Some w'
    /\ forall a b, in_image (data w') a b = true -> cell (data w') a b 0 sample = 0%Q.
Proof.
  intros Hok Hp. pose proof Hok as (Ht & Hr & Hfok & Hc & Hn & Hb).
  destruct (training_sample_ok sample s Hok) as (s' & Hff & _).
  exists s'.
  pose proof Hff as Hff'.
  apply FeedForward_sample_Done in Hff' as (e & fnw & s1 & s2 & s3 & Hsel & Hf & Hl & Hcl).
  destruct (select_element_fields _ _ _ _ Hsel) as ((_&_&Hp1&_&_&Ht1) & _ & Hr1 & Hfnw).
  rewrite (Hfnw Ht) in *.
  destruct (fetch_sample_fields _ _ _ _ _ _ Hf) as ((_&_&Hp2&_&_&Ht2) & _ & _ & Hr2 & _).
  injection Hcl as <-.
  rewrite Ht2, Ht1, Ht in Hl. simpl in Hl.
  destruct (ready_weight s2) as (w & Hw & Hwd & Hht); [congruence|].
  destruct (loss_sampling_spec sample s2 w Hw Hwd Hht) as (t' & Hl' & (_&Hw'&Hh'&_) & Hcells).
  rewrite Hl' in Hl. injection Hl as <-.
  eexists. split; [done|]. split; [simpl; reflexivity|].
  intros a b Hin. simpl. rewrite Hcells. unfold sampled_cells.
  assert (Hin' : in_image (data w) a b = true).
  { revert Hin. unfold in_image. simpl. by rewrite Hw', Hh'. }
  rewrite Hin', !Z.eqb_refl, draw_above_negative by (by rewrite Hp2, Hp1).
  reflexivity.
Qed.

(** In testing mode, too, [FeedForward] returns on a connected layer. *)
Lemma testing_call_returns s :
  testing_ s = true -> ready s = true -> testing_fetch_ok (dataset_ s) ->
  0 <= current_element_testing_ s ->
  0 <= batch_size_ s ->
  current_element_testing_ s + batch_size_ s < 2 ^ 32 ->
  exists s', FeedForward s = Done s'.
Proof.
  intros Ht Hr Hok Hc Hb0 Hb.
  rewrite FeedForward_run_samples by lia.
  destruct (testing_traversal_from (seqZ 0 (batch_size_ s)) s Ht Hr Hok Hc)
    as (s' & Hrun & _); [rewrite length_seqZ; lia|].
  by exists s'.
Qed.

End Extras.

(** * Reproducibility of the training indices *)

Section Reproducibility.
Context `{StdRandom}.







End Reproducibility.

(** * The outputs as shared objects: properties *)

Section SharedOutputs.
Context `{StdRandom}.

Lemma differ_ne (a b : nat) : differ (Some a) (Some b) = true -> a <> b.
Proof. simpl. rewrite negb_true_iff, Nat.eqb_neq. done. Qed.

(** The index selection does not look at the outputs. *)
Lemma select_element_bind_outputs (d l h e : option CombinedTensor) m :
  select_element (bind_outputs d l h e m)
  = match select_element m with
    | Done (x, fnw, m1) => Done (x, fnw, bind_outputs d l h e m1)
    | Fatal s => Fatal s
    | Undefined => Undefined
    | Timeout => Timeout
    end.
Proof.
  unfold select_element, vector_at. simpl.
  destruct (testing_ m); simpl.
  - by destruct (_ <=? _).
  - destruct (perm_ m !! _); simpl; [|done].
    destruct (_ <=? _); [|done].
    unfold RedoPermutation. simpl. by destruct (shuffle _ _).
Qed.

Lemma fetch_sample_view (sample x : Z) (fnw : bool) st :
  separate st = true ->
  fetch_sample sample x fnw (view st)
  = match fetch_sample_shared sample x fnw st with
    | Done (b, st') => Done (b, view st')
    | Fatal s => Fatal s
    | Undefined => Undefined
    | Timeout => Timeout
    end.
Proof.
  unfold separate, fetch_sample, fetch_sample_shared, view. simpl.
  destruct (data_output_at st) as [pd|] eqn:Epd; simpl; [|done].
  destruct (objects st !! pd) as [d|] eqn:Hd; simpl.
  2:{ by destruct (label_output_at st), (localized_error_output_at st). }
  destruct (label_output_at st) as [pl|] eqn:Epl; simpl; [|done].
  destruct (objects st !! pl) as [l|] eqn:Hl; simpl.
  2:{ by destruct (localized_error_output_at st). }
  destruct (localized_error_output_at st) as [pe|] eqn:Epe; simpl; [|done].
  destruct (objects st !! pe) as [e|] eqn:He; simpl; [|done].
  intros Hsep. repeat (apply andb_true_iff in Hsep as [Hsep ?]).
  assert (pd <> pl) by (by apply differ_ne).
  assert (pd <> pe) by (by apply differ_ne).
  assert (pl <> pe) by (by apply differ_ne).
  apply lookup_lt_Some in Hd as Hdl. apply lookup_lt_Some in Hl as Hll.
  apply lookup_lt_Some in He as Hel.
  destruct (_ (dataset_ (members st)) _ _ _ _ _) as [b [[cd cl] ce]]. simpl. rewrite ?Epd, ?Epl, ?Epe. cbn [load].
  rewrite (list_lookup_insert_ne _ pe pd), (list_lookup_insert_ne _ pl pd),
    list_lookup_insert_eq by (done || by rewrite ?length_insert).
  rewrite (list_lookup_insert_ne _ pe pl), list_lookup_insert_eq
    by (done || by rewrite ?length_insert).
  rewrite list_lookup_insert_eq by (by rewrite ?length_insert).
  destruct (helper_output_at st) as [ph|]; cbn [load]; [|done].
  rewrite !list_lookup_insert_ne by (apply not_eq_sym; by apply differ_ne).
  done.
Qed.

(** A write through [localized_error_output_], seen through [view]. *)
Lemma view_store_weight st (pe : nat) (e e' : CombinedTensor) m :
  separate st = true ->
  localized_error_output_at st = Some pe ->
  objects st !! pe = Some e ->
  view (with_members m (with_objects (<[pe := e']> (objects st)) st))
  = bind_outputs (data_output_ (view st)) (label_output_ (view st))
                 (helper_output_ (view st)) (Some e') m.
Proof.
  unfold separate, view. simpl. intros Hsep Epe He. rewrite Epe in *. cbn [load].
  repeat (apply andb_true_iff in Hsep as [Hsep ?]).
  apply lookup_lt_Some in He as Hel.
  rewrite list_lookup_insert_eq by done.
  destruct (data_output_at st) as [pd|], (label_output_at st) as [pl|],
    (helper_output_at st) as [ph|]; cbn [load];
    rewrite ?list_lookup_insert_ne by (try apply not_eq_sym; by apply differ_ne);
    done.
Qed.

Lemma loss_sampling_view (sample : Z) st :
  separate st = true ->
  loss_sampling sample (view st) = outcome_view (loss_sampling_shared sample st).
Proof.
  intros Hsep. unfold loss_sampling, loss_sampling_shared.
  change (localized_error_output_ (view st))
    with (load (objects st) (localized_error_output_at st)).
  destruct (localized_error_output_at st) as [pe|] eqn:Epe; cbn [load]; [|done].
  destruct (objects st !! pe) as [e|] eqn:He; [|done].
  change (loss_sampling_p_ (view st)) with (loss_sampling_p_ (members st)).
  change (generator_ (view st)) with (generator_ (members st)).
  destruct (loop_y _ _ _ _ _ _) as [[g t]|]; [|done].
  cbn [outcome_view]. by rewrite (view_store_weight st pe e).
Qed.

Lemma clear_weight_view (sample : Z) st :
  separate st = true ->
  clear_weight sample (view st) = outcome_view (clear_weight_shared sample st).
Proof.
  intros Hsep. unfold clear_weight, clear_weight_shared.
  change (localized_error_output_ (view st))
    with (load (objects st) (localized_error_output_at st)).
  destruct (localized_error_output_at st) as [pe|] eqn:Epe; cbn [load]; [|done].
  destruct (objects st !! pe) as [e|] eqn:He; [|done].
  cbn [outcome_view].
  change (with_objects (<[pe:=with_data e (Clear 0%Q sample (data e))]> (objects st)) st)
    with (with_members (members st)
            (with_objects (<[pe:=with_data e (Clear 0%Q sample (data e))]> (objects st)) st)).
  by rewrite (view_store_weight st pe e).
Qed.

(** [FeedForward] stores no pointer. *)
Lemma fetch_sample_shared_pointers (sample x : Z) (fnw b : bool) st st' :
  fetch_sample_shared sample x fnw st = Done (b, st') ->
  output_pointers st' = output_pointers st /\ length (objects st') = length (objects st).
Proof.
  unfold fetch_sample_shared.
  destruct (data_output_at st) as [pd|]; [|discriminate].
  destruct (label_output_at st) as [pl|]; [|discriminate].
  destruct (localized_error_output_at st) as [pe|]; [|discriminate].
  destruct (objects st !! pd), (objects st !! pl), (objects st !! pe); try discriminate.
  destruct (_ (dataset_ (members st)) _ _ _ _ _) as [b' [[cd cl] ce]].
  intros [= <- <-]. simpl. by rewrite !length_insert.
Qed.

Lemma loss_sampling_shared_pointers (sample : Z) st st' :
  loss_sampling_shared sample st = Done st' ->
  output_pointers st' = output_pointers st /\ length (objects st') = length (objects st).
Proof.
  unfold loss_sampling_shared.
  destruct (localized_error_output_at st) as [pe|]; [|discriminate].
  destruct (objects st !! pe); [|discriminate].
  destruct (loop_y _ _ _ _ _ _) as [[g t]|]; [|discriminate].
  intros [= <-]. simpl. by rewrite length_insert.
Qed.

Lemma clear_weight_shared_pointers (sample : Z) st st' :
  clear_weight_shared sample st = Done st' ->
  output_pointers st' = output_pointers st /\ length (objects st') = length (objects st).
Proof.
  unfold clear_weight_shared.
  destruct (localized_error_output_at st) as [pe|]; [|discriminate].
  destruct (objects st !! pe); [|discriminate].
  intros [= <-]. simpl. by rewrite length_insert.
Qed.

(** The slot body returns exactly when its four steps return in turn. *)
Lemma FeedForward_sample_shared_Done (sample : Z) st st' :
  FeedForward_sample_shared sample st = Done st' <->
  exists (x : Z) (fnw : bool) m1 st2 st3,
    select_element (members st) = Done (x, fnw, m1)
    /\ fetch_sample_shared sample x fnw (with_members m1 st) = Done (true, st2)
    /\ (if negb (testing_ (members st2)) && negb fnw
        then loss_sampling_shared sample st2 else Done st2) = Done st3
    /\ (if fnw then clear_weight_shared sample st3 else Done st3) = Done st'.
Proof.
  unfold FeedForward_sample_shared, FATAL. split.
  - destruct (select_element (members st)) as [[[x fnw] m1]| | |]; simpl; try discriminate.
    destruct (fetch_sample_shared sample x fnw _) as [[[] st2]| | |] eqn:Hf; simpl;
      try discriminate.
    destruct (if negb (testing_ (members st2)) && negb fnw then _ else _)
      as [st3| | |] eqn:Hl; simpl; try discriminate.
    intros Hc. by exists x, fnw, m1, st2, st3.
  - intros (x & fnw & m1 & st2 & st3 & -> & Hf & Hl & Hc); simpl.
    rewrite Hf; simpl. rewrite Hl; simpl. exact Hc.
Qed.

Lemma separate_pointers st st' :
  output_pointers st' = output_pointers st -> separate st' = separate st.
Proof. unfold output_pointers, separate. intros [= -> -> -> ->]. done. Qed.

Lemma FeedForward_sample_shared_pointers (sample : Z) st st' :
  FeedForward_sample_shared sample st = Done st' ->
  output_pointers st' = output_pointers st /\ length (objects st') = length (objects st).
Proof.
  intros Hff. apply FeedForward_sample_shared_Done in Hff
    as (x & fnw & m1 & st2 & st3 & Hsel & Hf & Hl & Hc).
  apply fetch_sample_shared_pointers in Hf as [Hp2 Hn2].
  assert (output_pointers st3 = output_pointers st2
          /\ length (objects st3) = length (objects st2)) as [Hp3 Hn3].
  { destruct (negb _ && negb _); [by apply loss_sampling_shared_pointers in Hl|].
    by injection Hl as <-. }
  assert (output_pointers st' = output_pointers st3
          /\ length (objects st') = length (objects st3)) as [Hp4 Hn4].
  { destruct fnw; [by apply clear_weight_shared_pointers in Hc|]. by injection Hc as <-. }
  split; [by rewrite Hp4, Hp3, Hp2|by rewrite Hn4, Hn3, Hn2].
Qed.

(** On separate outputs a batch slot of the store model has the outcome of the
    slot of the sections above. *)
Lemma FeedForward_sample_view (sample : Z) st :
  separate st = true ->
  outcome_view (FeedForward_sample_shared sample st) = FeedForward_sample sample (view st).
Proof.
  intros Hsep. unfold FeedForward_sample_shared, FeedForward_sample, FATAL.
  rewrite (select_element_bind_outputs _ _ _ _ (members st)
             : select_element (view st) = _).
  destruct (select_element (members st)) as [[[x fnw] m1]| | |]; simpl; try done.
  change (bind_outputs _ _ _ _ m1) with (view (with_members m1 st)).
  assert (Hsep1 : separate (with_members m1 st) = true) by exact Hsep.
  rewrite (fetch_sample_view sample x fnw _ Hsep1).
  destruct (fetch_sample_shared sample x fnw _) as [[b st2]| | |] eqn:Hf; simpl; try done.
  apply fetch_sample_shared_pointers in Hf as [Hp2 _].
  assert (Hsep2 : separate st2 = true) by (by rewrite (separate_pointers _ _ Hp2)).
  destruct b; simpl; [|done].
  change (testing_ (view st2)) with (testing_ (members st2)).
  destruct (negb (testing_ (members st2)) && negb fnw) eqn:Hcase.
  - rewrite (loss_sampling_view sample st2 Hsep2).
    destruct (loss_sampling_shared sample st2) as [st3| | |] eqn:Hl; simpl; try done.
    apply loss_sampling_shared_pointers in Hl as [Hp3 _].
    destruct fnw; [|done].
    symmetry. apply clear_weight_view. by rewrite (separate_pointers _ _ Hp3).
  - simpl. destruct fnw; [|done]. symmetry. by apply clear_weight_view.
Qed.

Lemma FeedForward_loop_view (fuel : nat) :
  forall (sample : Z) st,
    separate st = true ->
    outcome_view (FeedForward_loop_shared fuel sample st)
    = FeedForward_loop fuel sample (view st)
    /\ forall st', FeedForward_loop_shared fuel sample st = Done st' ->
                   output_pointers st' = output_pointers st
                   /\ length (objects st') = length (objects st).
Proof.
  induction fuel as [|fuel IH]; intros sample st Hsep; [done|].
  cbn [FeedForward_loop_shared FeedForward_loop].
  change (batch_size_ (view st)) with (batch_size_ (members st)).
  destruct (sample <? batch_size_ (members st)); [|split; [done|by intros st' [= <-]]].
  rewrite <- (FeedForward_sample_view sample st Hsep).
  destruct (FeedForward_sample_shared sample st) as [st1| | |] eqn:Hff; simpl; try done.
  apply FeedForward_sample_shared_pointers in Hff as [Hp1 Hn1].
  destruct (IH (wrap64 (sample + 1)) st1) as [Hv Hp];
    [by rewrite (separate_pointers _ _ Hp1)|].
  split; [exact Hv|]. intros st' Hst'. apply Hp in Hst' as [-> ->]. done.
Qed.


(** X15. When no two of the four output members point to the same object,
    [FeedForward] on the store has the outcome of [FeedForward] on the layer
    whose outputs are the objects themselves: it returns, halts, is undefined
    or hangs in the same cases, and the state it returns is the same layer,
    seen through the pointers. It stores no pointer, so the outputs stay
    separate. *)
Theorem FeedForward_on_separate_outputs st :
  separate st = true ->
  outcome_view (FeedForward_shared st) = FeedForward (view st)
  /\ forall st', FeedForward_shared st = Done st' ->
                 output_pointers st' = output_pointers st /\ separate st' = true.
Proof.
  intros Hsep. unfold FeedForward_shared, FeedForward.
  change (batch_size_ (view st)) with (batch_size_ (members st)).
  destruct (FeedForward_loop_view (S (Z.to_nat (batch_size_ (members st)))) 0 st Hsep)
    as [Hv Hp].
  split; [exact Hv|]. intros st' Hst'. apply Hp in Hst' as [Hst' _].
  split; [done|]. by rewrite (separate_pointers _ _ Hst').
Qed.

(** X16. The outputs [CreateOutputs] allocates are four objects of their own:
    connected to them, whatever the store held before, the layer has separate
    outputs, and seen through the pointers it is the layer that [Connect]
    gives on the four tensors themselves. *)
Theorem CreateOutputs_allocates_separate_outputs st :
  exists outputs st1 st2,
    CreateOutputs_shared [] [] st = (true, outputs, st1)
    /\ Connect_shared [] outputs st1 = Done (true, st2)
    /\ separate st2 = true
    /\ (forall a c, objects st !! a = Some c -> objects st2 !! a = Some c)
    /\ Connect [] (CreateOutputs [] [] (members st)).2 (members st)
       = Done (true, view st2).
Proof.
  eexists _, _, _. split; [reflexivity|]. split; [reflexivity|].
  split; [|split].
  - unfold separate. cbn [data_output_at label_output_at helper_output_at
                           localized_error_output_at differ].
    rewrite !andb_true_iff, !negb_true_iff, !Nat.eqb_neq. lia.
  - intros a c Ha. cbn [objects with_objects]. by apply lookup_app_l_Some.
  - unfold view. cbn [data_output_at label_output_at helper_output_at
                       localized_error_output_at objects with_objects members load].
    rewrite !lookup_app_r by lia.
    replace (length (objects st) - length (objects st))%nat with 0%nat by lia.
    replace (S (length (objects st)) - length (objects st))%nat with 1%nat by lia.
    replace (S (S (length (objects st))) - length (objects st))%nat with 2%nat by lia.
    replace (S (S (S (length (objects st)))) - length (objects st))%nat with 3%nat by lia.
    reflexivity.
Qed.

(** A batch slot in training mode returns on the store, aliased outputs or
    not, when the three outputs it uses are objects of the store, the cursor
    is inside the permutation and the dataset serves its samples. *)
Lemma training_sample_shared (sample x : Z) st (pd pl pe : nat) (d l e : CombinedTensor) :
  testing_ (members st) = false ->
  perm_ (members st) !! Z.to_nat (current_element_ (members st)) = Some x ->
  training_fetch_ok (dataset_ (members st)) ->
  data_output_at st = Some pd -> label_output_at st = Some pl ->
  localized_error_output_at st = Some pe ->
  objects st !! pd = Some d -> objects st !! pl = Some l -> objects st !! pe = Some e ->
  width (data e) + block_size <= 2 ^ 32 -> height (data e) + block_size <= 2 ^ 32 ->
  exists m1 st2 st',
    select_element (members st) = Done (x, false, m1)
    /\ fetch_sample_shared sample x false (with_members m1 st) = Done (true, st2)
    /\ FeedForward_sample_shared sample st = Done st'.
Proof.
  intros Ht Hx Hok Epd Epl Epe Hd Hl He Hw Hh.
  pose proof (select_element_training (members st) x Ht Hx) as Hsel. simpl in Hsel.
  destruct (select_element_fields _ _ _ _ Hsel) as ((Hds&_&_&_&_&Ht1) & _).
  set (m1 := if Z.of_nat (length (perm_ (members st)))
                <=? wrap32 (current_element_ (members st) + 1) then _ else _) in *.
  assert (Hf : exists st2,
            fetch_sample_shared sample x false (with_members m1 st) = Done (true, st2)
            /\ testing_ (members st2) = false
            /\ localized_error_output_at st2 = Some pe
            /\ exists e2, objects st2 !! pe = Some e2
                          /\ width (data e2) = width (data e)
                          /\ height (data e2) = height (data e)).
  { unfold fetch_sample_shared.
    cbn [data_output_at label_output_at localized_error_output_at objects members
         with_members].
    rewrite Epd, Epl, Epe, Hd, Hl, He, Ht1, Hds, Ht.
    specialize (Hok (data d) (data l) (data e) sample x).
    destruct (GetTrainingSample _ _ _ _ _ _) as [b [[cd cl] ce]].
    simpl in Hok. subst b. eexists. split; [reflexivity|].
    cbn [members with_members with_objects localized_error_output_at objects].
    split; [simpl; congruence|]. split; [exact Epe|].
    eexists. split.
    { apply list_lookup_insert_eq. rewrite !length_insert. by eapply lookup_lt_Some. }
    split; reflexivity. }
  destruct Hf as (st2 & Hf & Ht2 & Epe2 & e2 & He2 & Hw2 & Hh2).
  destruct (loop_y_spec sample (loss_sampling_p_ (members st2))
              (S (Z.to_nat (height (data e2)))) 0 (generator_ (members st2)) (data e2))
    as (t' & Hloop & _); [lia | lia | lia | |].
  { pose proof (nblocks_le (height (data e2) - 0)). lia. }
  exists m1, st2. eexists. split; [exact Hsel|]. split; [exact Hf|].
  apply FeedForward_sample_shared_Done.
  eexists x, false, m1, st2, _. split; [exact Hsel|]. split; [exact Hf|].
  rewrite Ht2. cbn [negb andb]. split; [|reflexivity].
  unfold loss_sampling_shared. rewrite Epe2, He2, Hloop. reflexivity.
Qed.

(** X12. What a returned batch slot leaves in the store, whether or not the
    output members point to different objects: the slot stores no pointer;
    the object behind [localized_error_output_] keeps its gradient tensor and
    its shape and differs from what the Dataset fetch left only by zeros
    written into this batch slot; every other object is exactly as the fetch
    left it, and an object that is not behind one of the three outputs handed
    to the fetch is as it was before the slot. So the data and label tensors
    are what the fetch wrote when they are not the object of the weight
    output, and they carry the zeros of the weight map when they are. *)
Theorem slot_only_zeroes_weights (sample x : Z) (fnw : bool) st m1 st2 st' :
  select_element (members st) = Done (x, fnw, m1) ->
  fetch_sample_shared sample x fnw (with_members m1 st) = Done (true, st2) ->
  FeedForward_sample_shared sample st = Done st' ->
  output_pointers st' = output_pointers st
  /\ exists (pe : nat) w w',
       localized_error_output_at st = Some pe
       /\ objects st2 !! pe = Some w
       /\ objects st' !! pe = Some w'
       /\ delta w' = delta w
       /\ only_zeroed sample (data w) (data w')
       /\ (forall a, a <> pe -> objects st' !! a = objects st2 !! a)
       /\ (forall a, data_output_at st <> Some a -> label_output_at st <> Some a ->
                     a <> pe -> objects st' !! a = objects st !! a).
Proof.
  intros Hsel Hf Hff.
  pose proof (FeedForward_sample_shared_pointers _ _ _ Hff) as [Hp _].
  split; [exact Hp|].
  apply FeedForward_sample_shared_Done in Hff
    as (x' & fnw' & m1' & st2' & st3 & Hsel' & Hf' & Hl & Hc).
  rewrite Hsel in Hsel'. injection Hsel' as <- <- <-.
  rewrite Hf in Hf'. injection Hf' as <-.
  assert (exists (pe : nat) w,
            localized_error_output_at st = Some pe
            /\ localized_error_output_at st2 = Some pe
            /\ objects st2 !! pe = Some w
            /\ forall a, data_output_at st <> Some a -> label_output_at st <> Some a ->
                         a <> pe -> objects st2 !! a = objects st !! a)
    as (pe & w & Epe & Epe2 & Hw & Hframe).
  { revert Hf. unfold fetch_sample_shared.
    cbn [data_output_at label_output_at localized_error_output_at objects members
         with_members].
    destruct (data_output_at st) as [pd|]; [|discriminate].
    destruct (label_output_at st) as [pl|]; [|discriminate].
    destruct (localized_error_output_at st) as [pe|] eqn:Epe; [|discriminate].
    destruct (objects st !! pd) as [d|] eqn:Hd; [|discriminate].
    destruct (objects st !! pl) as [l|] eqn:Hl'; [|discriminate].
    destruct (objects st !! pe) as [e|] eqn:He; [|discriminate].
    destruct (_ (dataset_ m1) _ _ _ _ _) as [b' [[cd cl] ce]].
    intros [= -> <-]. eexists pe, _.
    cbn [localized_error_output_at with_members with_objects objects].
    split; [done|]. split; [exact Epe|]. split.
    - apply list_lookup_insert_eq. rewrite !length_insert. by eapply lookup_lt_Some.
    - intros a Hd' Hl'' Hpe. rewrite !list_lookup_insert_ne; [done|congruence..]. }
  assert (localized_error_output_at st3 = Some pe
          /\ (forall a, a <> pe -> objects st3 !! a = objects st2 !! a)
          /\ exists w3, objects st3 !! pe = Some w3 /\ delta w3 = delta w
                        /\ only_zeroed sample (data w) (data w3))
    as (Epe3 & Hframe3 & w3 & Hw3 & Hdl3 & Hz3).
  { destruct (negb (testing_ (members st2)) && negb fnw).
    - revert Hl. unfold loss_sampling_shared. rewrite Epe2, Hw.
      destruct (loop_y _ _ _ _ _ _) as [[g t]|] eqn:Hy; [|discriminate].
      apply loop_y_only_zeroed in Hy. intros [= <-].
      cbn [localized_error_output_at with_members with_objects objects].
      split; [exact Epe2|]. split.
      + intros a Ha. by rewrite list_lookup_insert_ne.
      + exists (with_data w t). split; [|split; [reflexivity|exact Hy]].
        apply list_lookup_insert_eq. by eapply lookup_lt_Some.
    - injection Hl as <-. split; [exact Epe2|]. split; [done|]. exists w.
      split; [done|]. split; [done|]. apply only_zeroed_refl. }
  exists pe, w.
  destruct fnw.
  - revert Hc. unfold clear_weight_shared. rewrite Epe3, Hw3. intros [= <-].
    cbn [with_objects objects].
    exists (with_data w3 (Clear 0%Q sample (data w3))).
    split; [exact Epe|]. split; [exact Hw|]. split.
    { apply list_lookup_insert_eq. by eapply lookup_lt_Some. }
    split; [exact Hdl3|]. split.
    { eapply only_zeroed_trans; [exact Hz3|apply only_zeroed_Clear]. }
    split.
    + intros a Ha. rewrite list_lookup_insert_ne by done. by apply Hframe3.
    + intros a Hd' Hl' Ha. rewrite list_lookup_insert_ne by done.
      rewrite Hframe3 by done. by apply Hframe.
  - injection Hc as <-. exists w3.
    split; [exact Epe|]. split; [exact Hw|]. split; [exact Hw3|].
    split; [exact Hdl3|]. split; [exact Hz3|]. split; [exact Hframe3|].
    intros a Hd' Hl' Ha. rewrite Hframe3 by done. by apply Hframe.
Qed.

End SharedOutputs.

(** * Examples on the toy dataset *)

Module Examples.
Import Demo.
#[local] Existing Instance lcg_random.

Example toy_perm : perm_ toy_layer = [2; 0; 4; 1; 3].
Proof. reflexivity. Qed.

(** Two calls in training mode: the second call serves [perm_[3]], reshuffles
    while it serves [perm_[4]], and then serves element 0 of the new
    permutation. *)
Example toy_two_calls :
  log_ (state_of toy_layer (FeedForward_calls 2 toy_layer))
  = [EvShuffle;
     EvFetch false 0 2 false; EvFetch false 1 0 false; EvFetch false 2 4 false;
     EvFetch false 0 1 false; EvShuffle; EvFetch false 1 3 false;
     EvFetch false 2 2 false]
  /\ perm_ (state_of toy_layer (FeedForward_calls 2 toy_layer)) = [2; 4; 1; 3; 0]
  /\ current_element_ (state_of toy_layer (FeedForward_calls 2 toy_layer)) = 1.
Proof. vm_compute. done. Qed.

(** Two testing samples, one call with three slots: only index 0 is served,
    the slot of index 1 is already padding. *)
Example toy_testing_call :
  log_ (state_of toy_testing (FeedForward toy_testing))
  = [EvShuffle; EvFetch true 0 0 false; EvFetch true 1 0 true; EvFetch true 2 0 true].
Proof. vm_compute. reflexivity. Qed.

Lemma toy_training_fetch_ok : training_fetch_ok toy_dataset.
Proof. intros d l e sample index. reflexivity. Qed.

Lemma toy_testing_fetch_ok : testing_fetch_ok toy_dataset.
Proof. intros d l e sample index. reflexivity. Qed.

Lemma toy_training_ok : training_ok toy_layer.
Proof.
  split; [reflexivity|]. split; [reflexivity|]. split; [exact toy_training_fetch_ok|].
  rewrite toy_perm. change (current_element_ toy_layer) with 0.
  change (batch_size_ toy_layer) with 3. simpl. lia.
Qed.

Lemma testing_traversal_drops_last_witness :
  exists s',
    run_samples [0; 1; 2] toy_testing = Done s'
    /\ served_elements (log_ s')
       = served_elements (log_ toy_testing)
         ++ seqZ 0 (Z.min (Z.of_nat (length [0; 1; 2])) (elements_testing_ toy_testing - 1)).
Proof.
  apply (testing_traversal_drops_last [0; 1; 2] toy_testing);
    [reflexivity | reflexivity | exact toy_testing_fetch_ok | reflexivity | reflexivity].
Defined.

(** C2: after a call in testing mode the cursor is 3, and a second
    [SetTestingMode(true)] leaves it at 3. *)
Lemma SetTestingMode_twice_keeps_cursor :
  exists s',
    run_samples [0; 1; 2] toy_testing = Done s'
    /\ testing_ s' = true
    /\ current_element_testing_ s' = 3
    /\ current_element_testing_ (SetTestingMode true s') = 3.
Proof.
  destruct (testing_traversal_from [0; 1; 2] toy_testing)
    as (s' & Hrun & (_&_&_&_&_&Ht) & _ & Hcur & _);
    [reflexivity | reflexivity | exact toy_testing_fetch_ok | done | done |].
  exists s'. split; [exact Hrun|]. split; [exact Ht|]. split; [exact Hcur|].
  unfold SetTestingMode. rewrite Ht. exact Hcur.
Qed.

(** C3: with two testing samples the testing cursor is 2 after two slots; it
    is not reset, and the next slot moves it to 3. *)
Lemma testing_cursor_not_reset :
  exists s2 s3,
    run_samples [0; 1] toy_testing = Done s2
    /\ elements_testing_ s2 = 2
    /\ current_element_testing_ s2 = 2
    /\ FeedForward_sample 2 s2 = Done s3
    /\ current_element_testing_ s3 = 3.
Proof.
  destruct (testing_traversal_from [0; 1] toy_testing)
    as (s2 & Hrun & (Hds&_&_&_&Het&Ht) & Hr & Hcur & _);
    [reflexivity | reflexivity | exact toy_testing_fetch_ok | done | done |].
  destruct (testing_sample 2 s2) as (s3 & Hff & _ & _ & Hcur3 & _);
    [exact Ht | exact Hr | rewrite Hds; exact toy_testing_fetch_ok |].
  exists s2, s3. split; [exact Hrun|]. split; [exact Het|]. split; [exact Hcur|].
  split; [exact Hff|]. simpl in Hcur3. rewrite Hcur3, Hcur. reflexivity.
Qed.

Lemma cursors_after_sample_witness :
  exists s',
    final_state (FeedForward_sample 0 toy_testing) = Some s'
    /\ current_element_testing_ s' = wrap32 (current_element_testing_ toy_testing + 1)
    /\ current_element_ s' = current_element_ toy_testing
    /\ perm_ s' = perm_ toy_testing.
Proof.
  destruct (testing_sample 0 toy_testing) as (s' & Hff & _);
    [reflexivity | reflexivity | exact toy_testing_fetch_ok |].
  assert (Hf : final_state (FeedForward_sample 0 toy_testing) = Some s')
    by (rewrite Hff; reflexivity).
  exists s'. split; [exact Hf|].
  exact (cursors_after_sample 0 toy_testing s' Hf).
Defined.

Lemma perm_is_bijection_witness :
  exists s',
    FeedForward toy_layer = Done s'
    /\ reachable toy_dataset 3 (1 # 2) 42 s'
    /\ elements_training_ s' = 5
    /\ length (perm_ s') = 5%nat
    /\ merge_sort Z.le (perm_ s') = [0; 1; 2; 3; 4]
    /\ perm_ s' ≡ₚ [0; 1; 2; 3; 4].
Proof.
  destruct (FeedForward_ok toy_layer toy_training_ok) as (s' & Hff & _).
  assert (Hr : reachable toy_dataset 3 (1 # 2) 42 s').
  { apply (reach_FeedForward _ _ _ _ toy_layer); [|rewrite Hff; reflexivity].
    apply (reach_Connect _ _ _ _ toy_new [] (CreateOutputs [] [] toy_new).2 true);
      [apply reach_new | reflexivity]. }
  exists s'. split; [exact Hff|]. split; [exact Hr|].
  exact (perm_is_bijection toy_dataset 3 (1 # 2) 42 s' Hr).
Defined.

Lemma training_pass_witness :
  exists s',
    run_samples [0; 1; 2; 0; 1] toy_layer = Done s'
    /\ current_element_ s' = 0
    /\ shuffles (log_ s') = S (shuffles (log_ toy_layer))
    /\ selected_elements (log_ s') = selected_elements (log_ toy_layer) ++ perm_ toy_layer
    /\ (exists g, perm_ s' = (shuffle (perm_ toy_layer) g).1)
    /\ forall sample, exists s'',
         FeedForward_sample sample s' = Done s''
         /\ selected_elements (log_ s'') = selected_elements (log_ s') ++ take 1 (perm_ s').
Proof.
  apply (training_pass [0; 1; 2; 0; 1] toy_layer);
    [reflexivity | reflexivity | exact toy_training_fetch_ok | reflexivity
    | rewrite toy_perm; discriminate | rewrite toy_perm; reflexivity | reflexivity].
Defined.


Lemma loss_sampling_blocks_witness :
  exists s1 s2 w s' w',
    select_element toy_layer = Done (2, false, s1)
    /\ fetch_sample 0 2 false s1 = Done (true, s2)
    /\ localized_error_output_ s2 = Some w
    /\ FeedForward_sample 0 toy_layer = Done s'
    /\ localized_error_output_ s' = Some w'
    /\ same_shape (data w) (data w')
    /\ generator_ s'
       = skip (nblocks (height (data w)) * nblocks (width (data w))) (generator_ s2)
    /\ (forall a b m k,
          cell (data w') a b m k
          = sampled_cells (loss_sampling_p_ toy_layer) (generator_ s2) 0 (data w) a b m k).
Proof.
  assert (Hsel : select_element toy_layer = Done (2, false, set_current_element_ 1 toy_layer))
    by reflexivity.
  destruct (fetch_sample_ok 0 2 false (set_current_element_ 1 toy_layer))
    as (s2 & Hf); [reflexivity | exact toy_training_fetch_ok |].
  destruct (fetch_sample_fields _ _ _ _ _ _ Hf) as (_ & _ & _ & Hr2 & _).
  destruct (ready_weight s2) as (w & Hw & Hwd & Hht); [rewrite Hr2; reflexivity|].
  destruct (loss_sampling_blocks 0 2 false toy_layer _ s2 w Hsel Hf Hw Hwd Hht)
    as (s' & w' & Hff & Hw' & Hsh & Hrest).
  assert (Ht : testing_ toy_layer = false) by reflexivity.
  rewrite Ht in Hrest. destruct Hrest as (_ & Hg & Hc & _).
  exists (set_current_element_ 1 toy_layer), s2, w, s', w'.
  split; [exact Hsel|]. split; [exact Hf|]. split; [exact Hw|]. split; [exact Hff|].
  split; [exact Hw'|]. split; [exact Hsh|]. split; [exact Hg|]. exact Hc.
Defined.

Lemma fetch_failure_is_fatal_witness :
  exists s1 s2,
    select_element broken_layer = Done (2, false, s1)
    /\ fetch_sample 0 2 false s1 = Done (false, s2)
    /\ FeedForward_sample 0 broken_layer = Fatal s2
    /\ run_samples ([] ++ 0 :: [1; 2]) broken_layer = Fatal s2
    /\ log_ s2 = log_ s1 ++ [EvFetch (testing_ broken_layer) 0 2 false]
    /\ (forall fuel, 0 < batch_size_ broken_layer ->
                     FeedForward_loop (S fuel) 0 broken_layer = Fatal s2)
    /\ (forall k s', FeedForward s' = Fatal s2 -> FeedForward_calls (S k) s' = Fatal s2).
Proof.
  assert (Hsel : select_element broken_layer
                 = Done (2, false, set_current_element_ 1 broken_layer)) by reflexivity.
  destruct (fetch_sample_result 0 2 false false (set_current_element_ 1 broken_layer))
    as (s2 & Hf); [reflexivity | intros d l w; reflexivity |].
  exists (set_current_element_ 1 broken_layer), s2.
  split; [exact Hsel|]. split; [exact Hf|].
  exact (fetch_failure_is_fatal [] [1; 2] 0 2 false broken_layer broken_layer _ s2
           eq_refl Hsel Hf).
Defined.

(** C9: with a null helper output [Connect] returns true and binds it. *)
Lemma Connect_accepts_null_helper :
  Connect [] [Some (new_CombinedTensor 3 13 13 3); Some (new_CombinedTensor 3 13 13 1);
              None; Some (new_CombinedTensor 3 13 13 1)] toy_new
  = Done (true, bind_outputs (Some (new_CombinedTensor 3 13 13 3))
                  (Some (new_CombinedTensor 3 13 13 1)) None
                  (Some (new_CombinedTensor 3 13 13 1)) toy_new)
  /\ helper_output_
       (bind_outputs (Some (new_CombinedTensor 3 13 13 3))
          (Some (new_CombinedTensor 3 13 13 1)) None
          (Some (new_CombinedTensor 3 13 13 1)) toy_new) = None.
Proof. split; reflexivity. Qed.

End Examples.

(** * Examples for the further properties *)

Module ExtraExamples.
Import Demo.
#[local] Existing Instance lcg_random.

Lemma toy_boot_training_ok (batch_size : Z) (p : datum) :
  training_ok (state_of toy_new (boot toy_dataset batch_size p 42)).
Proof.
  apply (boot_training_ok toy_dataset batch_size p 42);
    [exact Examples.toy_training_fetch_ok | reflexivity | | | apply boot_Done].
  - change (wrap32 13 + 12 <= 2 ^ 32). rewrite wrap32_small by lia. lia.
  - change (wrap32 13 + 12 <= 2 ^ 32). rewrite wrap32_small by lia. lia.
Qed.

Lemma Connect_after_CreateOutputs_on_used_vector_witness :
  (CreateOutputs [] [None] toy_new).1 = true
  /\ (4 < length (CreateOutputs [] [None] toy_new).2)%nat
  /\ Connect [] (CreateOutputs [] [None] toy_new).2 toy_new = Done (false, toy_new).
Proof.
  apply (Connect_after_CreateOutputs_on_used_vector [] [None] toy_new). discriminate.
Defined.

Lemma accessors_agree_with_state_witness :
  exists s',
    FeedForward toy_layer = Done s'
    /\ GetBatchSize s' = wrap32 3
    /\ GetSamplesInTrainingSet s' = elements_training_ s'
    /\ GetSamplesInTrainingSet s' = Z.of_nat (length (perm_ s'))
    /\ GetSamplesInTestingSet s' = elements_testing_ s'.
Proof.
  destruct (FeedForward_ok toy_layer Examples.toy_training_ok) as (s' & Hff & _).
  exists s'. split; [exact Hff|].
  apply (accessors_agree_with_state toy_dataset 3 (1 # 2) 42 s').
  apply (reach_FeedForward _ _ _ _ toy_layer); [|rewrite Hff; reflexivity].
  apply (reach_Connect _ _ _ _ toy_new [] (CreateOutputs [] [] toy_new).2 true);
    [apply reach_new | reflexivity].
Defined.

Lemma FeedForward_needs_Connect_witness :
  FeedForward_sample 0 toy_new = Undefined
  /\ (0 < batch_size_ toy_new -> FeedForward toy_new = Undefined).
Proof. apply (FeedForward_needs_Connect 0 toy_new). reflexivity. Defined.

Lemma FeedForward_on_empty_training_set_witness :
  perm_ empty_layer = [] /\ testing_ empty_layer = false
  /\ FeedForward empty_layer = Undefined.
Proof.
  apply (FeedForward_on_empty_training_set empty_dataset 3 (1 # 2) 42 empty_layer);
    [reflexivity | reflexivity | apply boot_Done].
Defined.

Lemma training_calls_return_witness :
  exists s',
    FeedForward_calls 7 toy_layer = Done s'
    /\ testing_ s' = false
    /\ 0 <= current_element_ s' < Z.of_nat (length (perm_ s')).
Proof.
  apply (training_calls_return toy_dataset 3 (1 # 2) 42 7 toy_layer);
    [exact Examples.toy_training_fetch_ok | reflexivity | | | apply boot_Done].
  - change (wrap32 13 + 12 <= 2 ^ 32). rewrite wrap32_small by lia. lia.
  - change (wrap32 13 + 12 <= 2 ^ 32). rewrite wrap32_small by lia. lia.
Defined.

Lemma FeedForward_fills_every_slot_witness :
  exists s',
    FeedForward toy_layer = Done s'
    /\ fetch_slots (log_ s')
       = fetch_slots (log_ toy_layer)
         ++ ((testing_ toy_layer,.) <$> seqZ 0 (batch_size_ toy_layer)).
Proof.
  destruct (FeedForward_ok toy_layer Examples.toy_training_ok) as (s' & Hff & _).
  exists s'. split; [exact Hff|].
  apply (FeedForward_fills_every_slot toy_layer s'); [reflexivity | exact Hff].
Defined.

(** Two layers on the same seed that differ in batch size and loss sampling
    probability, run on different slot numbers. *)
Lemma training_stream_depends_on_sampler_only_witness :
  exists s' t' l,
    run_samples [0; 1; 2; 0; 1; 2] toy_layer = Done s'
    /\ run_samples [0; 1; 0; 1; 0; 1] toy_layer_quarter = Done t'
    /\ selected_elements (log_ s') = selected_elements (log_ toy_layer) ++ l
    /\ selected_elements (log_ t') = selected_elements (log_ toy_layer_quarter) ++ l
    /\ sampler_of s' = sampler_of t'.
Proof.
  apply (training_stream_depends_on_sampler_only
           [0; 1; 2; 0; 1; 2] [0; 1; 0; 1; 0; 1] toy_layer toy_layer_quarter);
    [exact Examples.toy_training_ok | exact (toy_boot_training_ok 2 (1 # 4))
    | reflexivity | reflexivity | reflexivity].
Defined.

Lemma testing_calls_keep_sampler_witness :
  exists s',
    final_state (FeedForward_calls 1 (SetTestingMode true toy_layer)) = Some s'
    /\ testing_ s' = true
    /\ sampler_of s' = sampler_of toy_layer
    /\ sampler_of (SetTestingMode false s') = sampler_of toy_layer.
Proof.
  destruct (testing_call_returns (SetTestingMode true toy_layer)) as (s' & Hff);
    [reflexivity | reflexivity | exact Examples.toy_testing_fetch_ok
    | apply Z.leb_le; reflexivity | apply Z.leb_le; reflexivity
    | apply Z.ltb_lt; reflexivity |].
  assert (Hf : final_state (FeedForward_calls 1 (SetTestingMode true toy_layer)) = Some s').
  { cbn [FeedForward_calls]. rewrite Hff. reflexivity. }
  exists s'. split; [exact Hf|].
  exact (testing_calls_keep_sampler 1 toy_layer s' Hf).
Defined.

Lemma padding_slot_has_no_weight_witness :
  exists s1 s' w',
    FeedForward_sample 0 toy_testing = Done s1
    /\ FeedForward_sample 1 s1 = Done s'
    /\ log_ s' = log_ s1 ++ [EvFetch true 1 0 true]
    /\ localized_error_output_ s' = Some w'
    /\ (forall a b m, cell (data w') a b m 1 = 0%Q)
    /\ generator_ s' = generator_ s1.
Proof.
  destruct (testing_sample 0 toy_testing) as (s1 & Hff & (Hds&_&_&_&Het&Ht) & Hr & Hcur & _);
    [reflexivity | reflexivity | exact Examples.toy_testing_fetch_ok |].
  destruct (padding_slot_has_no_weight 1 s1) as (s' & w' & Hff' & Hrest);
    [exact Ht | exact Hr | rewrite Hds; exact Examples.toy_testing_fetch_ok
    | rewrite Het, Hcur; apply Z.leb_le; reflexivity |].
  exists s1, s', w'. split; [exact Hff|]. split; [exact Hff'|]. exact Hrest.
Defined.

Lemma slot_only_zeroes_weights_witness :
  exists m1 st2 st',
    select_element (members toy_aliased) = Done (2, false, m1)
    /\ fetch_sample_shared 0 2 false (with_members m1 toy_aliased) = Done (true, st2)
    /\ FeedForward_sample_shared 0 toy_aliased = Done st'
    /\ output_pointers st' = output_pointers toy_aliased
    /\ exists (pe : nat) w w',
         localized_error_output_at toy_aliased = Some pe
         /\ objects st2 !! pe = Some w
         /\ objects st' !! pe = Some w'
         /\ delta w' = delta w
         /\ only_zeroed 0 (data w) (data w')
         /\ (forall a, a <> pe -> objects st' !! a = objects st2 !! a)
         /\ (forall a, data_output_at toy_aliased <> Some a ->
                       label_output_at toy_aliased <> Some a ->
                       a <> pe -> objects st' !! a = objects toy_aliased !! a).
Proof.
  destruct (training_sample_shared 0 2 toy_aliased 0 0 0
              (new_CombinedTensor 3 13 13 1) (new_CombinedTensor 3 13 13 1)
              (new_CombinedTensor 3 13 13 1))
    as (m1 & st2 & st' & Hsel & Hf & Hff);
    [reflexivity | reflexivity | exact Examples.toy_training_fetch_ok
    | reflexivity | reflexivity | reflexivity | reflexivity | reflexivity | reflexivity
    | apply Z.leb_le; reflexivity | apply Z.leb_le; reflexivity |].
  exists m1, st2, st'. split; [exact Hsel|]. split; [exact Hf|]. split; [exact Hff|].
  exact (slot_only_zeroes_weights 0 2 false toy_aliased m1 st2 st' Hsel Hf Hff).
Defined.

Lemma training_epochs_witness :
  exists s' l,
    run_samples [0; 1; 2; 0; 1; 2; 0; 1; 2; 0] toy_layer = Done s'
    /\ current_element_ s' = 0
    /\ shuffles (log_ s') = (shuffles (log_ toy_layer) + 2)%nat
    /\ selected_elements (log_ s') = selected_elements (log_ toy_layer) ++ l
    /\ l ≡ₚ concat (replicate 2 (perm_ toy_layer))
    /\ perm_ s' ≡ₚ perm_ toy_layer.
Proof.
  apply (training_epochs 2 [0; 1; 2; 0; 1; 2; 0; 1; 2; 0] toy_layer);
    [exact Examples.toy_training_ok | reflexivity | rewrite Examples.toy_perm; reflexivity].
Defined.

Lemma negative_probability_zeroes_the_map_witness :
  exists s' w',
    FeedForward_sample 0 toy_layer_negative = Done s'
    /\ localized_error_output_ s' = Some w'
    /\ forall a b, in_image (data w') a b = true -> cell (data w') a b 0 0 = 0%Q.
Proof.
  apply (negative_probability_zeroes_the_map 0 toy_layer_negative);
    [exact (toy_boot_training_ok 3 (-1 # 2)) | reflexivity].
Defined.

(** [Connect] takes one object for all four outputs. *)
Example Connect_shared_accepts_aliased :
  Connect_shared [] [Some 0%nat; Some 0%nat; Some 0%nat; Some 0%nat] toy_unbound
  = Done (true, toy_aliased).
Proof. reflexivity. Qed.

(** With all four outputs bound to one object, the data the layer hands on
    after a training slot is the weight map: the fetch wrote 1 into the slot,
    loss sampling (p = -1/2) put 0 into channel 0 and left channel 1. *)
Example aliased_data_is_sampled :
  match FeedForward_sample_shared 0 toy_aliased with
  | Done st' =>
      match load (objects st') (data_output_at st') with
      | Some c => cell (data c) 0 0 0 0 = 0%Q /\ cell (data c) 0 0 1 0 = 1%Q
      | None => False
      end
  | _ => False
  end.
Proof. vm_compute. done. Qed.

Lemma FeedForward_on_separate_outputs_witness :
  separate toy_shared = true
  /\ outcome_view (FeedForward_shared toy_shared) = FeedForward (view toy_shared)
  /\ forall st', FeedForward_shared toy_shared = Done st' ->
                 output_pointers st' = output_pointers toy_shared /\ separate st' = true.
Proof.
  split; [reflexivity|]. exact (FeedForward_on_separate_outputs toy_shared eq_refl).
Defined.

End ExtraExamples.
